(** * DataTable: selection, scroll-shadow and context-menu logic

    A shallow embedding of the state logic of [src/package/DataTable.tsx]:
    the derived selection values, the header and row selection handlers,
    the scroll-position handler, the page-change handler and the rendering
    of the row context menu.

    Conventions of the embedding.
    - A React handler is the list of calls it makes, in program order
      ([Call]): state setters of the component and callbacks of the
      embedding application.  The component state after the handler is
      obtained by replaying the setters ([run]).
    - A record is an opaque value of a type [T]; [getId r] stands for
      [get(record, idAccessor)].
    - A record key is a JavaScript primitive ([JsKey]): [undefined], a
      safe integer (at most 2^53 - 1 in absolute value, which [String]
      writes in plain decimal digits) or a string.  On these,
      [SameValueZero] (used by [includes], [uniqBy], [differenceBy]) and
      [===] coincide.
    - A measured size or scroll offset is a binary64 floating-point number
      ([number]), with the operations of the processor; [Math.round] is
      computed on the exact value of its argument.
    - A property that may be left out is an [option]: [None] is
      [undefined].
    - The throttle around the scroll handler only spaces its evaluations
      in time; each evaluation is one [Scroll] event. *)

From Stdlib Require Import List Bool Arith ZArith QArith Qround Lia Lqa.
From Stdlib Require Import PrimFloat SpecFloat FloatOps Eqdep_dec.

#[local] Set Warnings "-inexact-float".
From Stdlib Require Import Ascii String DecimalString.
Import ListNotations.

Local Open Scope nat_scope.

(** ** JavaScript values used by the component *)

Module Js.

(** [Number.isSafeInteger]. *)
Definition safeInteger (n : Z) : bool :=
  (Z.abs n <=? 9007199254740991)%Z.

Inductive JsKey : Type :=
| KUndefined
| KNum (n : Z) (safe : safeInteger n = true)
| KStr (s : string).

(** The key for an integer; an integer out of the safe range gives no
    number key. *)
Definition num (n : Z) : JsKey :=
  (if safeInteger n as b return (safeInteger n = b -> JsKey)
   then fun safe => KNum n safe
   else fun _ => KUndefined) eq_refl.

(** [SameValueZero], and [===] on the keys above. *)
Definition sameValueZero (a b : JsKey) : bool :=
  match a, b with
  | KUndefined, KUndefined => true
  | KNum n _, KNum m _ => Z.eqb n m
  | KStr s, KStr t => String.eqb s t
  | _, _ => false
  end.

Definition JsKey_eq_dec (a b : JsKey) : {a = b} + {a <> b}.
Proof.
  destruct a as [|n p|s], b as [|m q|t];
    try (right; discriminate); try (left; reflexivity).
  - destruct (Z.eq_dec n m) as [E | E].
    + left. subst m. f_equal. apply (UIP_dec Bool.bool_dec).
    + right. intros H. apply E. now inversion H.
  - destruct (string_dec s t) as [E | E].
    + left. now subst.
    + right. intros H. apply E. now inversion H.
Defined.

(** [String(value)] as [Array.prototype.join] applies it to an element:
    [undefined] gives the empty string. *)
Definition keyText (k : JsKey) : string :=
  match k with
  | KUndefined => EmptyString
  | KNum n _ => NilZero.string_of_int (Z.to_int n)
  | KStr s => s
  end.

(** [array.join(sep)] on an array of keys. *)
Definition join (sep : string) (ids : list JsKey) : string :=
  String.concat sep (map keyText ids).

(** [s || ''] on a string: the empty string is falsy. *)
Definition orEmpty (s : string) : string :=
  if String.eqb s EmptyString then EmptyString else s.

(** [array.includes(k)]. *)
Definition includes (ids : list JsKey) (k : JsKey) : bool :=
  existsb (sameValueZero k) ids.

(** [array.every(p)] and [array.some(p)]. *)
Definition every {A} (p : A -> bool) (l : list A) : bool := forallb p l.
Definition some {A} (p : A -> bool) (l : list A) : bool := existsb p l.

(** [array.filter((x, index) => p(x, index))]. *)
Fixpoint filterFrom {A} (i : nat) (p : A -> nat -> bool) (l : list A) : list A :=
  match l with
  | [] => []
  | x :: r => if p x i then x :: filterFrom (S i) p r else filterFrom (S i) p r
  end.

Definition filteri {A} (p : A -> nat -> bool) (l : list A) : list A :=
  filterFrom 0 p l.

(** The truthiness of a boolean property that may be left out. *)
Definition truthy (b : option bool) : bool :=
  match b with
  | Some true => true
  | _ => false
  end.

(** [Object.is] on such a property, as React compares dependencies:
    [undefined] and [false] differ. *)
Definition sameFlag (a b : option bool) : bool :=
  match a, b with
  | None, None => true
  | Some x, Some y => Bool.eqb x y
  | _, _ => false
  end.

(** A JavaScript number: a binary64 floating-point value. *)
Definition number : Type := float.

(** [a - b], [a === b] and [a <= b] on numbers, as IEEE 754 has them. *)
Definition minus (a b : number) : number := PrimFloat.sub a b.
Definition strictEq (a b : number) : bool := PrimFloat.eqb a b.
Definition lessEq (a b : number) : bool := PrimFloat.leb a b.

(** [Object.is] on numbers: [NaN] is itself, and the two zeros differ. *)
Definition sameNumber (a b : number) : bool := PrimFloat.Leibniz.eqb a b.

(** The exact value of a finite number. *)
Definition valueOf (x : number) : option Q :=
  match Prim2SF x with
  | S754_zero _ => Some 0%Q
  | S754_finite negative m e =>
      Some (inject_Z (if negative then Zneg m else Zpos m) * Qpower 2 e)%Q
  | S754_infinity _ | S754_nan => None
  end.

(** The result of [Math.round]: an integer-valued number, named by its
    value, an infinity or [NaN]. *)
Inductive Rounded : Type :=
| RInt (n : Z)
| RInf (negative : bool)
| RNaN.

(** [Math.round]: the integer nearest to the exact value of the argument,
    a tie going up; infinities and [NaN] are returned as they are. *)
Definition Math_round (x : number) : Rounded :=
  match Prim2SF x with
  | S754_nan => RNaN
  | S754_infinity negative => RInf negative
  | S754_zero _ | S754_finite _ _ _ =>
      match valueOf x with
      | Some v => RInt (Qfloor (v + (1 # 2)))
      | None => RNaN
      end
  end.

(** [a === b] on two results of [Math.round]: equal integers (the two
    zeros are both 0), or the same infinity; [NaN] equals nothing. *)
Definition roundedEq (a b : Rounded) : bool :=
  match a, b with
  | RInt n, RInt m => Z.eqb n m
  | RInf s, RInf t => Bool.eqb s t
  | _, _ => false
  end.

End Js.

Import Js.

(** ** lodash helpers, on records keyed by an iteratee *)

Section Lodash.

Context {T : Type}.
Variable iteratee : T -> JsKey.

(** [baseUniq]: a value is kept when its computed key was not seen yet. *)
Fixpoint baseUniq (seen : list JsKey) (array : list T) : list T :=
  match array with
  | [] => []
  | value :: rest =>
      let computed := iteratee value in
      if includes seen computed
      then baseUniq seen rest
      else value :: baseUniq (computed :: seen) rest
  end.

(** [uniqBy(array, iteratee)]. *)
Definition uniqBy (array : list T) : list T := baseUniq [] array.

(** [differenceBy(array, values, iteratee)]. *)
Definition differenceBy (array values : list T) : list T :=
  let excluded := map iteratee values in
  filter (fun value => negb (includes excluded (iteratee value))) array.

End Lodash.

(** ** The component *)

Section DataTable.

Context {T : Type}.

(** [get(record, idAccessor)]. *)
Variable getId : T -> JsKey.

(** *** State and calls *)

(** The value held by [contextMenuInfo] while a menu is open. *)
Record ContextMenuInfo : Type := {
  top : number;
  left : number;
  record : T
}.

(** The six [useState] cells of the component. *)
Record State : Type := {
  scrolledToTop : bool;
  scrolledToBottom : bool;
  scrolledToLeft : bool;
  scrolledToRight : bool;
  contextMenuInfo : option ContextMenuInfo;
  lastSelectionChangeIndex : option nat
}.

Definition initialState : State := {|
  scrolledToTop := true;
  scrolledToBottom := true;
  scrolledToLeft := true;
  scrolledToRight := true;
  contextMenuInfo := None;
  lastSelectionChangeIndex := None
|}.

(** What a handler can do: set a state cell, scroll the viewport, or
    call back into the application.  [itemOnClick k r] is the call
    [onClick(r)] of the menu item with key [k]. *)
Inductive Call : Type :=
| setScrolledToTop (b : bool)
| setScrolledToBottom (b : bool)
| setScrolledToLeft (b : bool)
| setScrolledToRight (b : bool)
| setContextMenuInfo (info : option ContextMenuInfo)
| setLastSelectionChangeIndex (index : option nat)
| scrollTo (top left : number)
| onPageChange (page : Z)
| onSelectedRecordsChange (selection : list T)
| itemOnClick (itemKey : string) (r : T).

Definition apply (st : State) (c : Call) : State :=
  match c with
  | setScrolledToTop b =>
      {| scrolledToTop := b; scrolledToBottom := scrolledToBottom st;
         scrolledToLeft := scrolledToLeft st; scrolledToRight := scrolledToRight st;
         contextMenuInfo := contextMenuInfo st;
         lastSelectionChangeIndex := lastSelectionChangeIndex st |}
  | setScrolledToBottom b =>
      {| scrolledToTop := scrolledToTop st; scrolledToBottom := b;
         scrolledToLeft := scrolledToLeft st; scrolledToRight := scrolledToRight st;
         contextMenuInfo := contextMenuInfo st;
         lastSelectionChangeIndex := lastSelectionChangeIndex st |}
  | setScrolledToLeft b =>
      {| scrolledToTop := scrolledToTop st; scrolledToBottom := scrolledToBottom st;
         scrolledToLeft := b; scrolledToRight := scrolledToRight st;
         contextMenuInfo := contextMenuInfo st;
         lastSelectionChangeIndex := lastSelectionChangeIndex st |}
  | setScrolledToRight b =>
      {| scrolledToTop := scrolledToTop st; scrolledToBottom := scrolledToBottom st;
         scrolledToLeft := scrolledToLeft st; scrolledToRight := b;
         contextMenuInfo := contextMenuInfo st;
         lastSelectionChangeIndex := lastSelectionChangeIndex st |}
  | setContextMenuInfo info =>
      {| scrolledToTop := scrolledToTop st; scrolledToBottom := scrolledToBottom st;
         scrolledToLeft := scrolledToLeft st; scrolledToRight := scrolledToRight st;
         contextMenuInfo := info;
         lastSelectionChangeIndex := lastSelectionChangeIndex st |}
  | setLastSelectionChangeIndex index =>
      {| scrolledToTop := scrolledToTop st; scrolledToBottom := scrolledToBottom st;
         scrolledToLeft := scrolledToLeft st; scrolledToRight := scrolledToRight st;
         contextMenuInfo := contextMenuInfo st;
         lastSelectionChangeIndex := index |}
  | scrollTo _ _ | onPageChange _ | onSelectedRecordsChange _ | itemOnClick _ _ => st
  end.

(** The state once the calls of a handler were made, in order. *)
Definition run (st : State) (calls : list Call) : State :=
  fold_left apply calls st.

(** *** Scroll position *)

(** The sizes measured by [useElementSize] and the offsets read from
    [scrollViewportRef.current]. *)
Record Layout : Type := {
  tableWidth : number;
  tableHeight : number;
  scrollViewportWidth : number;
  scrollViewportHeight : number;
  scrollTop : number;
  scrollLeft : number
}.

(** [onScrollPositionChange], lines 102-122. *)
Definition onScrollPositionChange (fetching : option bool) (l : Layout) : list Call :=
  (if negb (truthy fetching) then [setContextMenuInfo None] else [])
  ++ (if truthy fetching || lessEq (tableHeight l) (scrollViewportHeight l)
      then [setScrolledToTop true; setScrolledToBottom true]
      else [setScrolledToTop (strictEq (scrollTop l) 0%float);
            setScrolledToBottom
              (roundedEq (Math_round (minus (tableHeight l) (scrollTop l)))
                         (Math_round (scrollViewportHeight l)))])
  ++ (if truthy fetching || strictEq (tableWidth l) (scrollViewportWidth l)
      then [setScrolledToLeft true; setScrolledToRight true]
      else [setScrolledToLeft (strictEq (scrollLeft l) 0%float);
            setScrolledToRight
              (roundedEq (Math_round (minus (tableWidth l) (scrollLeft l)))
                         (Math_round (scrollViewportWidth l)))]).

(** The effect keyed on [fetching], lines 98-100. *)
Definition fetchingEffect (fetching : option bool) : list Call :=
  if truthy fetching then [setContextMenuInfo None] else [].

(** *** Pagination *)

(** [handlePageChange], lines 135-138. *)
Definition handlePageChange (page : Z) : list Call :=
  [scrollTo 0%float 0%float; onPageChange page].

(** *** Selection *)

(** The derived values of lines 141-146. *)
Definition recordIds (records : option (list T)) : option (list JsKey) :=
  option_map (map getId) records.

Definition selectedRecordIds (selectedRecords : option (list T)) : option (list JsKey) :=
  option_map (map getId) selectedRecords.

Definition hasRecordsAndSelectedRecords (records selectedRecords : option (list T)) : bool :=
  match recordIds records, selectedRecordIds selectedRecords with
  | Some _, Some sel => 0 <? List.length sel
  | _, _ => false
  end.

Definition allRecordsSelected (records selectedRecords : option (list T)) : bool :=
  hasRecordsAndSelectedRecords records selectedRecords
  && match recordIds records, selectedRecordIds selectedRecords with
     | Some ids, Some sel => every (fun id => includes sel id) ids
     | _, _ => false
     end.

Definition someRecordsSelected (records selectedRecords : option (list T)) : bool :=
  hasRecordsAndSelectedRecords records selectedRecords
  && match recordIds records, selectedRecordIds selectedRecords with
     | Some ids, Some sel => some (fun id => includes sel id) ids
     | _, _ => false
     end.

(** [recordIdsString], line 150: [recordIds?.join(':') || '']. *)
Definition recordIdsString (records : option (list T)) : string :=
  match recordIds records with
  | Some ids => orEmpty (join ":" ids)
  | None => EmptyString
  end.

(** The effect keyed on [recordIdsString], lines 151-153. *)
Definition recordIdsEffect : list Call := [setLastSelectionChangeIndex None].

(** [selected] of a row: [selectedRecordIds?.includes(recordId) || false]. *)
Definition selected (selectedRecords : option (list T)) (r : T) : bool :=
  match selectedRecordIds selectedRecords with
  | Some sel => includes sel (getId r)
  | None => false
  end.

(** The selection handed to [onSelectedRecordsChange] by the header
    checkbox, lines 203-207.  [None] is the [TypeError] of spreading [records!] when
    [records] is [undefined]. *)
Definition headerSelection (records : option (list T)) (selectedRecords : list T)
  : option (list T) :=
  if allRecordsSelected records (Some selectedRecords)
  then match recordIds records with
       | Some ids =>
           Some (filter (fun r => negb (includes ids (getId r))) selectedRecords)
       | None => None
       end
  else match records with
       | Some rs => Some (uniqBy getId (selectedRecords ++ rs))
       | None => None
       end.

Definition headerSelectionChange (records : option (list T)) (selectedRecords : list T)
  : list Call :=
  match headerSelection records selectedRecords with
  | Some selection => [onSelectedRecordsChange selection]
  | None => []
  end.

(** [recordsInterval], lines 230-234: the records of a shift-click,
    between the last toggled row and the clicked one. *)
Definition recordsInterval (records : list T) (lastIndex recordIndex : nat) : list T :=
  filteri
    (if lastIndex <? recordIndex
     then fun _ index => (lastIndex <=? index) && (index <=? recordIndex)
     else fun _ index => (recordIndex <=? index) && (index <=? lastIndex))
    records.

(** The selection handed to [onSelectedRecordsChange] by the checkbox of
    row [recordIndex], which shows [r], lines 229-246. *)
Definition rowSelection (shiftKey : bool) (lastIndex : option nat)
    (records selectedRecords : list T) (recordIndex : nat) (r : T) : list T :=
  let recordId := getId r in
  let isSelected := selected (Some selectedRecords) r in
  match shiftKey, lastIndex with
  | true, Some lastIndex =>
      let interval := recordsInterval records lastIndex recordIndex in
      if isSelected
      then differenceBy getId selectedRecords interval
      else uniqBy getId (selectedRecords ++ interval)
  | _, _ =>
      if isSelected
      then filter (fun x => negb (sameValueZero (getId x) recordId)) selectedRecords
      else uniqBy getId (selectedRecords ++ [r])
  end.

(** The row handler, lines 228-248: the callback, then the anchor. *)
Definition rowSelectionChange (shiftKey : bool) (lastIndex : option nat)
    (records selectedRecords : list T) (recordIndex : nat) (r : T) : list Call :=
  [onSelectedRecordsChange
     (rowSelection shiftKey lastIndex records selectedRecords recordIndex r);
   setLastSelectionChangeIndex (Some recordIndex)].

(** *** Row context menu *)

(** A property given as a value or as a function of the record. *)
Inductive OrFunction (A : Type) : Type :=
| Fixed (a : A)
| PerRecord (f : T -> A).

Arguments Fixed {A} a.
Arguments PerRecord {A} f.

(** [typeof p === 'function' ? p(record) : p], read as a condition: a
    property left out is [undefined], which is falsy. *)
Definition resolve (p : option (OrFunction bool)) (r : T) : bool :=
  match p with
  | Some (PerRecord f) => f r
  | Some (Fixed b) => b
  | None => false
  end.

(** An item of [rowContextMenu.items].  Its [onClick] is named by its
    [key] in [itemOnClick]; [title], [icon] and [color] only change how
    the item is drawn and are left out. *)
Record MenuItem : Type := {
  key : string;
  hidden : option (OrFunction bool);
  disabled : option (OrFunction bool)
}.

Record RowContextMenu : Type := {
  menuDisabled : option (OrFunction bool);
  items : list MenuItem
}.

(** A [DataTableRowMenuItem] element: a button with its click handler. *)
Record RenderedItem : Type := {
  itemKey : string;
  itemDisabled : bool;
  onClick : list Call
}.

(** The body of [rowContextMenu.items.map], lines 301-322; [None] is the
    [null] returned for a hidden item. *)
Definition renderItem (info : ContextMenuInfo) (item : MenuItem) : option RenderedItem :=
  let r := record info in
  if resolve (hidden item) r then None
  else Some {| itemKey := key item;
               itemDisabled := resolve (disabled item) r;
               onClick := [setContextMenuInfo None; itemOnClick (key item) r] |}.

(** A [DataTableRowMenu] element. *)
Record RenderedMenu : Type := {
  menuTop : number;
  menuLeft : number;
  onDestroy : list Call;
  children : list (option RenderedItem)
}.

(** [rowContextMenu && contextMenuInfo && <DataTableRowMenu ...>],
    lines 295-324. *)
Definition renderMenu (menu : option RowContextMenu) (info : option ContextMenuInfo)
  : option RenderedMenu :=
  match menu, info with
  | Some m, Some i =>
      Some {| menuTop := top i;
              menuLeft := left i;
              onDestroy := [setContextMenuInfo None];
              children := map (renderItem i) (items m) |}
  | _, _ => None
  end.

(** The buttons React puts on screen: [null] children are skipped. *)
Fixpoint rendered (cs : list (option RenderedItem)) : list RenderedItem :=
  match cs with
  | [] => []
  | Some i :: rest => i :: rendered rest
  | None :: rest => rendered rest
  end.

(** Modelled from the spec: the right-click of a row.  [DataTableRow] is
    not among the sources; by section 4.3 a qualifying right-click hands
    the pointer coordinates and the row's record to the [onContextMenu]
    property, which [DataTable] sets to [setContextMenuInfo] unless the
    menu is absent or disabled for the record. *)
Definition rowContextMenuEvent (menu : option RowContextMenu) (r : T)
    (y x : number) : list Call :=
  match menu with
  | Some m =>
      if negb (resolve (menuDisabled m) r)
      then [setContextMenuInfo (Some {| top := y; left := x; record := r |})]
      else []
  | None => []
  end.

(** *** The component as a transition system *)

(** The properties the logic above reads.  [selectedRecords] stands for
    the pair [selectedRecords] and [onSelectedRecordsChange], [page] for
    the pair [page] and [onPageChange]. *)
Record Props : Type := {
  fetching : option bool;
  records : option (list T);
  selectedRecords : option (list T);
  rowContextMenu : option RowContextMenu;
  page : option Z
}.

Record Widget : Type := {
  props : Props;
  layout : Layout;
  state : State
}.

Definition sameSizes (a b : Layout) : bool :=
  sameNumber (scrollViewportHeight a) (scrollViewportHeight b)
  && sameNumber (scrollViewportWidth a) (scrollViewportWidth b)
  && sameNumber (tableHeight a) (tableHeight b)
  && sameNumber (tableWidth a) (tableWidth b).

(** The [useEffect] bodies that run after a render, in the order of their
    declaration: all of them on mount ([prev = None]), afterwards those
    with a changed dependency. *)
Definition effects (prev : option (Props * Layout)) (p : Props) (l : Layout) : list Call :=
  match prev with
  | None =>
      fetchingEffect (fetching p)
      ++ onScrollPositionChange (fetching p) l
      ++ recordIdsEffect
  | Some (p0, l0) =>
      (if sameFlag (fetching p0) (fetching p) then []
       else fetchingEffect (fetching p))
      ++ (if sameFlag (fetching p0) (fetching p) && sameSizes l0 l then []
          else onScrollPositionChange (fetching p) l)
      ++ (if String.eqb (recordIdsString (records p0)) (recordIdsString (records p))
          then [] else recordIdsEffect)
  end.

Definition mount (p : Props) (l : Layout) : Widget :=
  {| props := p; layout := l; state := run initialState (effects None p l) |}.

Inductive Event : Type :=
| Render (p : Props) (l : Layout)
| Scroll (y x : number)
| HeaderCheckbox
| RowCheckbox (recordIndex : nat) (shiftKey : bool)
| RowRightClick (recordIndex : nat) (y x : number)
| MenuItemClick (position : nat)
| MenuDestroy
| PageChange (n : Z).

Definition scrolled (l : Layout) (y x : number) : Layout :=
  {| tableWidth := tableWidth l; tableHeight := tableHeight l;
     scrollViewportWidth := scrollViewportWidth l;
     scrollViewportHeight := scrollViewportHeight l;
     scrollTop := y; scrollLeft := x |}.

(** The calls made in answer to an event.  An event aimed at an element
    that is not rendered (a row past the end, the checkbox of a table
    without selection, an item of a closed menu) makes none. *)
Definition handle (w : Widget) (e : Event) : list Call :=
  let p := props w in
  match e with
  | Render p' l' => effects (Some (p, layout w)) p' l'
  | Scroll y x => onScrollPositionChange (fetching p) (scrolled (layout w) y x)
  | HeaderCheckbox =>
      match selectedRecords p with
      | Some sel => headerSelectionChange (records p) sel
      | None => []
      end
  | RowCheckbox recordIndex shiftKey =>
      match records p, selectedRecords p with
      | Some rs, Some sel =>
          match nth_error rs recordIndex with
          | Some r =>
              rowSelectionChange shiftKey (lastSelectionChangeIndex (state w))
                rs sel recordIndex r
          | None => []
          end
      | _, _ => []
      end
  | RowRightClick recordIndex y x =>
      match records p with
      | Some rs =>
          match nth_error rs recordIndex with
          | Some r => rowContextMenuEvent (rowContextMenu p) r y x
          | None => []
          end
      | None => []
      end
  | MenuItemClick position =>
      match renderMenu (rowContextMenu p) (contextMenuInfo (state w)) with
      | Some m =>
          match nth_error (rendered (children m)) position with
          | Some i => if itemDisabled i then [] else onClick i
          | None => []
          end
      | None => []
      end
  | MenuDestroy =>
      match renderMenu (rowContextMenu p) (contextMenuInfo (state w)) with
      | Some m => onDestroy m
      | None => []
      end
  | PageChange n =>
      match page p with
      | Some current => if Z.eqb current 0 then [] else handlePageChange n
      | None => []
      end
  end.

Definition step (w : Widget) (e : Event) : Widget :=
  {| props := match e with Render p' _ => p' | _ => props w end;
     layout := match e with
               | Render _ l' => l'
               | Scroll y x => scrolled (layout w) y x
               | _ => layout w
               end;
     state := run (state w) (handle w e) |}.

Definition steps (w : Widget) (es : list Event) : Widget :=
  fold_left step es w.

End DataTable.

Arguments Fixed {T A} a.
Arguments PerRecord {T A} f.

(** ** Vocabulary of the specification *)

Section Vocabulary.

Context {T : Type}.
Variable getId : T -> JsKey.

(** The keys of a list of records, in order. *)
Definition keys (l : list T) : list JsKey := map getId l.

(** Two selections hold the same set of keys. *)
Definition sameKeySet (a b : list T) : Prop :=
  forall k, In k (keys a) <-> In k (keys b).

(** The records at the indices [lo], ..., [hi] of a list. *)
Definition inclusiveInterval (l : list T) (lo hi : nat) : list T :=
  firstn (S hi - lo) (skipn lo l).

(** The four flags of a state, as (top, bottom) and (left, right). *)
Definition verticalFlags (st : @State T) : bool * bool :=
  (scrolledToTop st, scrolledToBottom st).

Definition horizontalFlags (st : @State T) : bool * bool :=
  (scrolledToLeft st, scrolledToRight st).

End Vocabulary.

(** [n] is the integer nearest to [v], a tie counting for the integer
    above. *)
Definition nearestInteger (v : Q) (n : Z) : Prop :=
  (inject_Z n - (1 # 2) <= v /\ v < inject_Z n + (1 # 2))%Q.

(** ** Sample data *)

Module Sample.

Record Employee : Type := {
  id : JsKey;
  name : string
}.

Definition employee (n : Z) (who : string) : Employee :=
  {| id := num n; name := who |}.

Definition ada := employee 1 "Ada".
Definition bob := employee 2 "Bob".
Definition cyd := employee 3 "Cyd".
Definition dan := employee 4 "Dan".
Definition eve := employee 5 "Eve".

Definition staff : list Employee := [ada; bob; cyd; dan; eve].

(** Records keyed by strings. *)
Definition tagged (s : string) : Employee := {| id := KStr s; name := s |}.

Definition layoutOf (w h vw vh y x : number) : Layout :=
  {| tableWidth := w; tableHeight := h;
     scrollViewportWidth := vw; scrollViewportHeight := vh;
     scrollTop := y; scrollLeft := x |}.

Definition menu : @RowContextMenu Employee :=
  {| menuDisabled := None;
     items := [ {| key := "edit"; hidden := None; disabled := None |};
                {| key := "promote";
                   hidden := Some (PerRecord (fun r => sameValueZero (id r) (num 1)));
                   disabled := None |};
                {| key := "delete"; hidden := Some (Fixed false); disabled := None |} ] |}.

Definition propsOf (busy : bool) (rs sel : list Employee) : Props :=
  {| fetching := Some busy; records := Some rs; selectedRecords := Some sel;
     rowContextMenu := Some menu; page := Some 1%Z |}.

Definition quietLayout : Layout :=
  layoutOf 800%float 600%float 800%float 500%float 0%float 0%float.

(** A table that starts a fetch, is right-clicked on its third row and
    then scrolled. *)
Definition busyWidget : Widget :=
  steps id (mount id (propsOf false staff []) quietLayout)
    [Render (propsOf true staff []) quietLayout;
     RowRightClick 2 40%float 60%float;
     Scroll 100%float 0%float].

(** A table whose first row is toggled before its single record, keyed
    [a:b], gives way to two records keyed [a] and [b]. *)
Definition staleWidget : Widget :=
  steps id (mount id (propsOf false [tagged "a:b"] []) quietLayout)
    [RowCheckbox 0 false;
     Render (propsOf false [tagged "a"; tagged "b"] []) quietLayout].

(** A table whose first row is toggled before its records change from
    the whole staff to Dan and Eve. *)
Definition toggledWidget : Widget :=
  steps id (mount id (propsOf false staff []) quietLayout)
    [RowCheckbox 0 false].

End Sample.

(** ** What the component hands to its children *)

Section View.

Context {T : Type}.
Variable getId : T -> JsKey.

(** [!!selectedRecords], lines 197 and 224: an array, even an empty one,
    is truthy. *)
Definition selectionVisible (p : @Props T) : bool :=
  match selectedRecords p with
  | Some _ => true
  | None => false
  end.

(** Line 155. *)
Definition selectionVisibleAndNotScrolledToLeft (p : @Props T) (st : @State T) : bool :=
  selectionVisible p && negb (scrolledToLeft st).

(** The shadows of [DataTableScrollArea], lines 174-176. *)
Definition leftShadowVisible (p : @Props T) (st : @State T) : bool :=
  negb (selectionVisible p || scrolledToLeft st).

Definition rightShadowVisible (st : @State T) : bool :=
  negb (scrolledToRight st).

Definition bottomShadowVisible (st : @State T) : bool :=
  negb (scrolledToBottom st).

(** The shadow under [DataTableHeader], line 212. *)
Definition headerBottomShadowVisible (st : @State T) : bool :=
  negb (scrolledToTop st).

(** The header checkbox, lines 198-199. *)
Definition selectionChecked (p : @Props T) : bool :=
  allRecordsSelected getId (records p) (selectedRecords p).

Definition selectionIndeterminate (p : @Props T) : bool :=
  someRecordsSelected getId (records p) (selectedRecords p)
  && negb (allRecordsSelected getId (records p) (selectedRecords p)).

(** [contextMenuVisible] of the row showing [r], line 260. *)
Definition contextMenuVisible (st : @State T) (r : T) : bool :=
  match contextMenuInfo st with
  | Some info => sameValueZero (getId (record info)) (getId r)
  | None => false
  end.

(** Which state cell a call writes. *)
Definition setsFlag (c : @Call T) : bool :=
  match c with
  | setScrolledToTop _ | setScrolledToBottom _
  | setScrolledToLeft _ | setScrolledToRight _ => true
  | _ => false
  end.

Definition setsMenu (c : @Call T) : bool :=
  match c with
  | setContextMenuInfo _ => true
  | _ => false
  end.

Definition setsAnchor (c : @Call T) : bool :=
  match c with
  | setLastSelectionChangeIndex _ => true
  | _ => false
  end.

End View.

(** ** Facts about the JavaScript and lodash helpers *)

Lemma sameValueZero_true (a b : JsKey) : sameValueZero a b = true <-> a = b.
Proof.
  split.
  - destruct a as [|n p|s], b as [|m q|t]; simpl;
      try discriminate; try reflexivity.
    + intros H. apply Z.eqb_eq in H. subst m. f_equal.
      apply (UIP_dec Bool.bool_dec).
    + intros H. apply String.eqb_eq in H. now subst.
  - intros <-. destruct a; simpl;
      [reflexivity | apply Z.eqb_refl | apply String.eqb_refl].
Qed.

Lemma sameValueZero_refl (a : JsKey) : sameValueZero a a = true.
Proof. now apply sameValueZero_true. Qed.

Lemma includes_In (ids : list JsKey) (k : JsKey) : includes ids k = true <-> In k ids.
Proof.
  unfold includes. rewrite existsb_exists. split.
  - intros [x [Hin Heq]]. apply sameValueZero_true in Heq. now subst.
  - intros Hin. exists k. split; [assumption | apply sameValueZero_refl].
Qed.

Lemma includes_false (ids : list JsKey) (k : JsKey) : includes ids k = false <-> ~ In k ids.
Proof.
  rewrite <- includes_In. destruct (includes ids k); split; congruence.
Qed.

Lemma orEmpty_id (s : string) : orEmpty s = s.
Proof.
  unfold orEmpty. destruct (String.eqb_spec s EmptyString); congruence.
Qed.

Section LodashFacts.

Context {T : Type}.
Variable f : T -> JsKey.

Lemma baseUniq_keys (array : list T) : forall seen k,
  In k (map f (baseUniq f seen array)) <-> In k (map f array) /\ ~ In k seen.
Proof.
  induction array as [|v rest IH]; intros seen k; simpl.
  - tauto.
  - destruct (includes seen (f v)) eqn:E.
    + apply includes_In in E. rewrite IH. split.
      * intros [H1 H2]. tauto.
      * intros [[H1 | H1] H2]; [subst; contradiction | tauto].
    + apply includes_false in E. simpl. rewrite IH. simpl. split.
      * intros [H | [H1 H2]]; [subst; tauto | tauto].
      * intros [[H1 | H1] H2]; [tauto |].
        destruct (JsKey_eq_dec (f v) k); [tauto | right; tauto].
Qed.

Lemma baseUniq_NoDup (array : list T) : forall seen,
  NoDup (map f (baseUniq f seen array)).
Proof.
  induction array as [|v rest IH]; intros seen; simpl.
  - constructor.
  - destruct (includes seen (f v)) eqn:E; [apply IH |].
    simpl. constructor; [| apply IH].
    rewrite baseUniq_keys. simpl. tauto.
Qed.

Lemma baseUniq_fixed (array : list T) : forall seen,
  NoDup (map f array) ->
  (forall k, In k seen -> ~ In k (map f array)) ->
  baseUniq f seen array = array.
Proof.
  induction array as [|v rest IH]; intros seen Hnd Hout; simpl; [reflexivity |].
  inversion Hnd as [|? ? Hnot Hrest]; subst.
  destruct (includes seen (f v)) eqn:E.
  - apply includes_In in E. exfalso. apply (Hout _ E). now left.
  - f_equal. apply IH; [assumption |].
    intros k [<- | Hk]; [assumption |].
    intros Hin. apply (Hout _ Hk). now right.
Qed.

Lemma uniqBy_keys (array : list T) (k : JsKey) :
  In k (map f (uniqBy f array)) <-> In k (map f array).
Proof.
  unfold uniqBy. rewrite baseUniq_keys. simpl. tauto.
Qed.

Lemma uniqBy_NoDup (array : list T) : NoDup (map f (uniqBy f array)).
Proof. apply baseUniq_NoDup. Qed.

Lemma uniqBy_fixed (array : list T) :
  NoDup (map f array) -> uniqBy f array = array.
Proof.
  intros H. apply baseUniq_fixed; [assumption | intros k []].
Qed.

Lemma filter_keys (p : JsKey -> bool) (array : list T) (k : JsKey) :
  In k (map f (filter (fun v => p (f v)) array)) <-> In k (map f array) /\ p k = true.
Proof.
  rewrite !in_map_iff. split.
  - intros [v [<- Hv]]. apply filter_In in Hv. destruct Hv. split; [eauto | assumption].
  - intros [[v [<- Hv]] Hp]. exists v. split; [reflexivity |].
    apply filter_In. now split.
Qed.

Lemma differenceBy_keys (array values : list T) (k : JsKey) :
  In k (map f (differenceBy f array values))
  <-> In k (map f array) /\ ~ In k (map f values).
Proof.
  unfold differenceBy.
  rewrite (filter_keys (fun k => negb (includes (map f values) k))).
  rewrite negb_true_iff, includes_false. tauto.
Qed.

End LodashFacts.

(** ** The interval of a shift-click *)

Section IntervalFacts.

Context {T : Type}.

Lemma filterFrom_range (l : list T) : forall i lo hi,
  filterFrom i (fun _ index => (lo <=? index) && (index <=? hi)) l
  = firstn (S hi - Nat.max lo i) (skipn (lo - i) l).
Proof.
  induction l as [|x r IH]; intros i lo hi.
  - simpl. now rewrite skipn_nil, firstn_nil.
  - cbn [filterFrom]. rewrite IH.
    destruct (Nat.leb_spec lo i) as [Hlo | Hlo];
      destruct (Nat.leb_spec i hi) as [Hhi | Hhi]; cbn [andb].
    + replace (lo - i) with 0 by lia. replace (lo - S i) with 0 by lia.
      replace (S hi - Nat.max lo i) with (S (hi - i)) by lia.
      replace (S hi - Nat.max lo (S i)) with (hi - i) by lia.
      reflexivity.
    + replace (S hi - Nat.max lo (S i)) with 0 by lia.
      replace (S hi - Nat.max lo i) with 0 by lia.
      reflexivity.
    + replace (lo - i) with (S (lo - S i)) by lia.
      replace (Nat.max lo (S i)) with lo by lia.
      replace (Nat.max lo i) with lo by lia.
      reflexivity.
    + replace (S hi - Nat.max lo (S i)) with 0 by lia.
      replace (S hi - Nat.max lo i) with 0 by lia.
      reflexivity.
Qed.

Lemma recordsInterval_inclusive (records : list T) (a j : nat) :
  recordsInterval records a j
  = inclusiveInterval records (Nat.min a j) (Nat.max a j).
Proof.
  unfold recordsInterval, inclusiveInterval, filteri.
  destruct (Nat.ltb_spec a j) as [H | H]; rewrite filterFrom_range.
  - replace (Nat.min a j) with a by lia. replace (Nat.max a j) with j by lia.
    now rewrite Nat.max_0_r, Nat.sub_0_r.
  - replace (Nat.min a j) with j by lia. replace (Nat.max a j) with a by lia.
    now rewrite Nat.max_0_r, Nat.sub_0_r.
Qed.

Lemma recordsInterval_sym (records : list T) (a j : nat) :
  recordsInterval records a j = recordsInterval records j a.
Proof.
  rewrite !recordsInterval_inclusive.
  now rewrite Nat.min_comm, Nat.max_comm.
Qed.

Lemma inclusiveInterval_nth (l : list T) (lo hi k : nat) :
  nth_error (inclusiveInterval l lo hi) k
  = if (lo + k <=? hi) then nth_error l (lo + k) else None.
Proof.
  unfold inclusiveInterval.
  destruct (Nat.leb_spec (lo + k) hi) as [H | H].
  - rewrite nth_error_firstn.
    destruct (Nat.ltb_spec k (S hi - lo)); [| lia].
    now rewrite nth_error_skipn.
  - rewrite nth_error_firstn.
    destruct (Nat.ltb_spec k (S hi - lo)); [lia | reflexivity].
Qed.

End IntervalFacts.

(** ** Selection *)

Section SelectionFacts.

Context {T : Type}.
Variable getId : T -> JsKey.


Lemma selected_In (S : list T) (x : T) :
  selected getId (Some S) x = true <-> In (getId x) (keys getId S).
Proof. unfold selected. simpl. apply includes_In. Qed.

Lemma selected_not_In (S : list T) (x : T) :
  selected getId (Some S) x = false <-> ~ In (getId x) (keys getId S).
Proof. unfold selected. simpl. apply includes_false. Qed.

Lemma keys_app (a b : list T) (k : JsKey) :
  In k (keys getId (a ++ b)) <-> In k (keys getId a) \/ In k (keys getId b).
Proof. unfold keys. rewrite map_app. apply in_app_iff. Qed.

Lemma keys_empty (l : list T) : (forall k, ~ In k (keys getId l)) -> l = [].
Proof.
  destruct l as [|x l]; [reflexivity |].
  intros H. exfalso. apply (H (getId x)). now left.
Qed.

Lemma allRecordsSelected_true (R S : list T) :
  allRecordsSelected getId (Some R) (Some S) = true ->
  forall k, In k (keys getId R) -> In k (keys getId S).
Proof.
  unfold allRecordsSelected. simpl.
  intros H k Hk. apply andb_true_iff in H. destruct H as [_ H].
  unfold every in H. rewrite forallb_forall in H.
  apply includes_In. now apply H.
Qed.

Lemma allRecordsSelected_false (R S : list T) :
  allRecordsSelected getId (Some R) (Some S) = false ->
  (forall k, In k (keys getId R) -> In k (keys getId S)) ->
  S = [].
Proof.
  unfold allRecordsSelected, hasRecordsAndSelectedRecords. simpl.
  intros H Hall. apply andb_false_iff in H. destruct H as [H | H].
  - destruct S; [reflexivity | discriminate].
  - exfalso. unfold every in H.
    assert (E : forallb (fun id => includes (map getId S) id) (map getId R) = true).
    { apply forallb_forall. intros k Hk. apply includes_In. now apply Hall. }
    congruence.
Qed.

Lemma someRecordsSelected_false (R S : list T) :
  someRecordsSelected getId (Some R) (Some S) = false ->
  forall k, In k (keys getId R) -> ~ In k (keys getId S).
Proof.
  unfold someRecordsSelected, hasRecordsAndSelectedRecords. simpl.
  intros H k Hk Hin. apply andb_false_iff in H. destruct H as [H | H].
  - destruct S; [contradiction | discriminate].
  - unfold some in H.
    assert (E : existsb (fun id => includes (map getId S) id) (map getId R) = true).
    { apply existsb_exists. exists k. split; [assumption | now apply includes_In]. }
    congruence.
Qed.

Lemma keys_uniqBy (l : list T) (k : JsKey) :
  In k (keys getId (uniqBy getId l)) <-> In k (keys getId l).
Proof. apply uniqBy_keys. Qed.

Lemma keys_filter (p : JsKey -> bool) (l : list T) (k : JsKey) :
  In k (keys getId (filter (fun v => p (getId v)) l))
  <-> In k (keys getId l) /\ p k = true.
Proof. apply filter_keys. Qed.

Lemma keys_without (excluded : list JsKey) (l : list T) (k : JsKey) :
  In k (keys getId (filter (fun v => negb (includes excluded (getId v))) l))
  <-> In k (keys getId l) /\ ~ In k excluded.
Proof.
  rewrite (keys_filter (fun k => negb (includes excluded k))).
  now rewrite negb_true_iff, includes_false.
Qed.

(** The key set handed over by the header checkbox. *)
Lemma headerSelection_keys (R S : list T) :
  exists S', headerSelection getId (Some R) S = Some S'
    /\ forall k, In k (keys getId S') <->
         if allRecordsSelected getId (Some R) (Some S)
         then In k (keys getId S) /\ ~ In k (keys getId R)
         else In k (keys getId S) \/ In k (keys getId R).
Proof.
  unfold headerSelection.
  destruct (allRecordsSelected getId (Some R) (Some S)); simpl; eexists; split;
    try reflexivity; intros k.
  - unfold keys.
    rewrite (filter_keys getId (fun k => negb (includes (map getId R) k))).
    now rewrite negb_true_iff, includes_false.
  - unfold keys. rewrite uniqBy_keys. apply keys_app.
Qed.

(** Two header toggles in a row, in terms of key sets. *)
Lemma headerSelection_twice_keys (R S : list T) :
  exists S1 S2,
    headerSelection getId (Some R) S = Some S1
    /\ headerSelection getId (Some R) S1 = Some S2
    /\ forall k, In k (keys getId S2) <->
         if allRecordsSelected getId (Some R) (Some S)
         then In k (keys getId S)
         else In k (keys getId S) /\ ~ In k (keys getId R).
Proof.
  destruct (headerSelection_keys R S) as [S1 [E1 K1]].
  destruct (headerSelection_keys R S1) as [S2 [E2 K2]].
  exists S1, S2. split; [assumption |]. split; [assumption |].
  intros k. rewrite K2.
  assert (Dec : In k (keys getId R) \/ ~ In k (keys getId R)).
  { destruct (in_dec JsKey_eq_dec k (keys getId R)); tauto. }
  destruct (allRecordsSelected getId (Some R) (Some S)) eqn:A.
  - pose proof (allRecordsSelected_true _ _ A) as Sub.
    destruct (allRecordsSelected getId (Some R) (Some S1)) eqn:A1.
    + pose proof (allRecordsSelected_true _ _ A1) as Sub1.
      assert (NR : ~ In k (keys getId R)).
      { intros HR. pose proof (Sub1 k HR) as H1. apply K1 in H1. tauto. }
      rewrite K1. tauto.
    + rewrite K1. specialize (Sub k). tauto.
  - destruct (allRecordsSelected getId (Some R) (Some S1)) eqn:A1.
    + rewrite K1. tauto.
    + assert (Hnil : S1 = []).
      { apply (allRecordsSelected_false R); [assumption |].
        intros k' Hk'. apply K1. now right. }
      subst S1. simpl in K1.
      split.
      * intros [[] | HR]. exfalso. apply (K1 k). now right.
      * intros [HS _]. exfalso. apply (K1 k). now left.
Qed.

End SelectionFacts.

Section SelectionProperties.

Context {T : Type}.
Variable getId : T -> JsKey.

Lemma interval_member_index (R : list T) (lo hi i : nat) (x : T) :
  NoDup (keys getId R) ->
  nth_error R i = Some x ->
  In (getId x) (keys getId (inclusiveInterval R lo hi)) ->
  lo <= i <= hi.
Proof.
  intros Hnd Hi Hin. unfold keys in Hin. apply in_map_iff in Hin.
  destruct Hin as [y [Hy Hin]].
  apply In_nth_error in Hin. destruct Hin as [n Hn].
  rewrite inclusiveInterval_nth in Hn.
  destruct (Nat.leb_spec (lo + n) hi) as [Hle | Hle]; [| discriminate].
  assert (E : i = lo + n).
  { unfold keys in Hnd. rewrite NoDup_nth_error in Hnd. apply Hnd.
    - rewrite length_map. apply nth_error_Some. congruence.
    - rewrite !nth_error_map, Hi, Hn. simpl. now rewrite Hy. }
  lia.
Qed.

Lemma clicked_in_interval (R : list T) (a j : nat) (r : T) :
  nth_error R j = Some r ->
  In r (inclusiveInterval R (Nat.min a j) (Nat.max a j)).
Proof.
  intros Hr. apply nth_error_In with (n := j - Nat.min a j).
  rewrite inclusiveInterval_nth.
  replace (Nat.min a j + (j - Nat.min a j)) with j by lia.
  destruct (Nat.leb_spec j (Nat.max a j)); [assumption | lia].
Qed.

(** C1.  A shift-click on row [j] with the anchor set to [a] works on the
    records at the indices [min a j .. max a j] of the record list.  When
    the clicked row is unselected it hands over the selection followed by
    that interval, de-duplicated by key; when the clicked row is selected
    it hands over the selection without the entries whose key is the key
    of a record of the interval.  Afterwards a record whose key occurs in
    the interval has the opposite of the clicked row's former status, and
    a record whose key does not occur there keeps its status; with
    distinct keys in the record list this is every row outside the
    index interval.  Swapping anchor and clicked row gives the same
    interval, and the same selection when both rows had the same status. *)
Theorem shift_range_selection (R S : list T) (a j : nat) (r : T) :
  nth_error R j = Some r ->
  let interval := inclusiveInterval R (Nat.min a j) (Nat.max a j) in
  let S' := rowSelection getId true (Some a) R S j r in
  rowSelectionChange getId true (Some a) R S j r
    = [onSelectedRecordsChange S'; setLastSelectionChangeIndex (Some j)]
  /\ recordsInterval R a j = interval
  /\ recordsInterval R j a = interval
  /\ In r interval
  /\ S' = (if selected getId (Some S) r
           then filter (fun x => negb (includes (keys getId interval) (getId x))) S
           else uniqBy getId (S ++ interval))
  /\ (forall x, In (getId x) (keys getId interval) ->
        selected getId (Some S') x = negb (selected getId (Some S) r))
  /\ (forall x, ~ In (getId x) (keys getId interval) ->
        selected getId (Some S') x = selected getId (Some S) x)
  /\ (NoDup (keys getId R) ->
      forall i x, nth_error R i = Some x ->
        i < Nat.min a j \/ Nat.max a j < i ->
        selected getId (Some S') x = selected getId (Some S) x)
  /\ (forall ra, nth_error R a = Some ra ->
        selected getId (Some S) ra = selected getId (Some S) r ->
        rowSelection getId true (Some j) R S a ra = S').
Proof.
  intros Hr interval S'.
  assert (EI : recordsInterval R a j = interval)
    by apply recordsInterval_inclusive.
  assert (ES : S' = (if selected getId (Some S) r
           then filter (fun x => negb (includes (keys getId interval) (getId x))) S
           else uniqBy getId (S ++ interval))).
  { unfold S', rowSelection. rewrite EI. reflexivity. }
  assert (Hin : forall x, In (getId x) (keys getId interval) ->
        selected getId (Some S') x = negb (selected getId (Some S) r)).
  { intros x Hx. rewrite ES. destruct (selected getId (Some S) r); simpl.
    - apply selected_not_In. rewrite keys_without. tauto.
    - apply selected_In. rewrite keys_uniqBy.
      apply keys_app. now right. }
  assert (Hout : forall x, ~ In (getId x) (keys getId interval) ->
        selected getId (Some S') x = selected getId (Some S) x).
  { intros x Hx. apply eq_iff_eq_true. rewrite !selected_In, ES.
    destruct (selected getId (Some S) r).
    - rewrite keys_without. tauto.
    - rewrite keys_uniqBy, keys_app. tauto. }
  repeat split; try assumption.
  - rewrite recordsInterval_sym. exact EI.
  - now apply clicked_in_interval.
  - intros Hnd i x Hi Hrange. apply Hout. intros Hx.
    pose proof (interval_member_index R _ _ i x Hnd Hi Hx). lia.
  - intros ra _ Hsame. unfold S', rowSelection.
    now rewrite Hsame, (recordsInterval_sym R j a).
Qed.

(** C6.  A plain click on the checkbox of a row showing [r] hands over
    the selection without every entry whose key is [r]'s key when [r] is
    selected, and otherwise the selection followed by [r], de-duplicated
    by key.  The status of [r] flips, and a second plain click on the
    same row, given the first result as the selection, hands over a
    selection with the key set of the original one. *)
Theorem single_toggle (R S : list T) (j : nat) (r : T) (last : option nat) :
  nth_error R j = Some r ->
  let S1 := rowSelection getId false last R S j r in
  let S2 := rowSelection getId false (Some j) R S1 j r in
  rowSelectionChange getId false last R S j r
    = [onSelectedRecordsChange S1; setLastSelectionChangeIndex (Some j)]
  /\ S1 = (if selected getId (Some S) r
           then filter (fun x => negb (sameValueZero (getId x) (getId r))) S
           else uniqBy getId (S ++ [r]))
  /\ (selected getId (Some S) r = true ->
        forall x, In x S1 <-> In x S /\ getId x <> getId r)
  /\ (selected getId (Some S) r = false ->
        (forall k, In k (keys getId S1) <-> In k (keys getId S) \/ k = getId r)
        /\ NoDup (keys getId S1)
        /\ (NoDup (keys getId S) -> S1 = S ++ [r]))
  /\ selected getId (Some S1) r = negb (selected getId (Some S) r)
  /\ sameKeySet getId S2 S.
Proof.
  intros _ S1 S2.
  assert (E1 : S1 = (if selected getId (Some S) r
           then filter (fun x => negb (sameValueZero (getId x) (getId r))) S
           else uniqBy getId (S ++ [r]))).
  { unfold S1, rowSelection. destruct last; reflexivity. }
  assert (K1 : forall k, In k (keys getId S1) <->
            if selected getId (Some S) r
            then In k (keys getId S) /\ k <> getId r
            else In k (keys getId S) \/ k = getId r).
  { intros k. rewrite E1. destruct (selected getId (Some S) r).
    - rewrite (keys_filter getId (fun k => negb (sameValueZero k (getId r)))).
      rewrite negb_true_iff. split; intros [H1 H2]; split; try assumption.
      + intros ->. now rewrite sameValueZero_refl in H2.
      + destruct (sameValueZero k (getId r)) eqn:E; [| reflexivity].
        apply sameValueZero_true in E. contradiction.
    - rewrite keys_uniqBy, keys_app. simpl. intuition. }
  assert (F1 : selected getId (Some S1) r = negb (selected getId (Some S) r)).
  { destruct (selected getId (Some S) r) eqn:E; simpl.
    - apply selected_not_In. rewrite K1. tauto.
    - apply selected_In. rewrite K1. now right. }
  split; [reflexivity |].
  split; [exact E1 |].
  split.
  { intros Hsel x. rewrite E1, Hsel, filter_In, negb_true_iff.
    split; intros [Hx Hne]; split; try assumption.
    - intros Heq. rewrite Heq, sameValueZero_refl in Hne. discriminate.
    - destruct (sameValueZero (getId x) (getId r)) eqn:E; [| reflexivity].
      apply sameValueZero_true in E. contradiction. }
  split.
  { intros Hsel. split; [| split].
    - intros k. rewrite K1, Hsel. tauto.
    - rewrite E1, Hsel. apply uniqBy_NoDup.
    - intros Hnd. rewrite E1, Hsel. apply uniqBy_fixed.
      rewrite map_app. simpl.
      apply (proj2 (NoDup_Add (Add_app (getId r) (map getId S) []))).
      rewrite app_nil_r. split; [exact Hnd | now apply selected_not_In]. }
  split; [exact F1 |].
  intros k. unfold S2, rowSelection. rewrite F1.
  destruct (selected getId (Some S) r) eqn:E; simpl.
  - rewrite keys_uniqBy, keys_app, K1. simpl.
    apply selected_In in E.
    destruct (JsKey_eq_dec k (getId r)) as [-> | Hne]; intuition (subst; auto).
  - rewrite (keys_filter getId (fun k => negb (sameValueZero k (getId r)))).
    rewrite K1, negb_true_iff. apply selected_not_In in E.
    split.
    + intros [[Hk | ->] Hne]; [assumption |].
      now rewrite sameValueZero_refl in Hne.
    + intros Hk. split; [now left |].
      destruct (sameValueZero k (getId r)) eqn:E2; [| reflexivity].
      apply sameValueZero_true in E2. subst k. contradiction.
Qed.

End SelectionProperties.

Section AdditionProperties.

Context {T : Type}.
Variable getId : T -> JsKey.

(** C9.  A selection handed over by an operation that adds records has
    no two entries with the same key, whatever the selection it started
    from: the click (plain or with shift, with or without an anchor) on
    a row that is not selected, and the header checkbox when not all
    records are selected. *)
Theorem additions_have_unique_keys (R S : list T) :
  (forall shiftKey last j r,
      selected getId (Some S) r = false ->
      NoDup (keys getId (rowSelection getId shiftKey last R S j r)))
  /\ (allRecordsSelected getId (Some R) (Some S) = false ->
      exists S', headerSelection getId (Some R) S = Some S'
                 /\ NoDup (keys getId S')).
Proof.
  split.
  - intros shiftKey last j r Hsel. unfold rowSelection. rewrite Hsel.
    destruct shiftKey, last; apply uniqBy_NoDup.
  - intros Hall. unfold headerSelection. rewrite Hall.
    eexists. split; [reflexivity | apply uniqBy_NoDup].
Qed.

(** C2, as amended.  When every record of the list is selected, or none
    is, two clicks on the header checkbox in a row, the second one given
    the result of the first as the selection, hand over a selection with
    the key set of the original one. *)
Theorem header_toggle_twice (R S : list T) :
  allRecordsSelected getId (Some R) (Some S) = true
  \/ someRecordsSelected getId (Some R) (Some S) = false ->
  exists S1 S2,
    headerSelection getId (Some R) S = Some S1
    /\ headerSelection getId (Some R) S1 = Some S2
    /\ sameKeySet getId S2 S.
Proof.
  intros H.
  destruct (headerSelection_twice_keys getId R S) as [S1 [S2 [E1 [E2 K]]]].
  exists S1, S2. split; [assumption |]. split; [assumption |].
  intros k. rewrite K.
  destruct (allRecordsSelected getId (Some R) (Some S)) eqn:A; [tauto |].
  destruct H as [H | H]; [discriminate |].
  pose proof (someRecordsSelected_false getId R S H k) as Hk. tauto.
Qed.

(** The remaining case of the header checkbox: when only some records of
    the list are selected, two clicks leave the original keys without
    those of the record list. *)
Lemma header_toggle_twice_partial (R S : list T) :
  allRecordsSelected getId (Some R) (Some S) = false ->
  exists S1 S2,
    headerSelection getId (Some R) S = Some S1
    /\ headerSelection getId (Some R) S1 = Some S2
    /\ forall k, In k (keys getId S2)
                 <-> In k (keys getId S) /\ ~ In k (keys getId R).
Proof.
  intros A.
  destruct (headerSelection_twice_keys getId R S) as [S1 [S2 [E1 [E2 K]]]].
  rewrite A in K. exists S1, S2. auto.
Qed.

End AdditionProperties.

(** ** The selection claims on the sample data *)

Import Sample.

Lemma shift_range_selection_witness :
  nth_error staff 4 = Some eve
  /\ rowSelection id true (Some 1) staff [bob] 4 eve = [bob; cyd; dan; eve]
  /\ recordsInterval staff 4 1 = [bob; cyd; dan; eve].
Proof.
  split; [reflexivity |].
  destruct (shift_range_selection id staff [bob] 1 4 eve eq_refl)
    as (_ & _ & EI & _ & ES & _).
  split; [rewrite ES | rewrite EI]; reflexivity.
Defined.

Lemma single_toggle_witness :
  nth_error staff 2 = Some cyd
  /\ rowSelection id false None staff [ada; bob] 2 cyd = [ada; bob; cyd]
  /\ sameKeySet id
       (rowSelection id false (Some 2) staff
          (rowSelection id false None staff [ada; bob] 2 cyd) 2 cyd)
       [ada; bob].
Proof.
  split; [reflexivity |].
  destruct (single_toggle id staff [ada; bob] 2 cyd None eq_refl)
    as (_ & E1 & _ & _ & _ & K).
  split; [rewrite E1; reflexivity | exact K].
Defined.

Lemma additions_have_unique_keys_witness :
  selected id (Some [ada; ada; bob]) cyd = false
  /\ allRecordsSelected id (Some staff) (Some [ada; ada; bob]) = false
  /\ NoDup (keys id (rowSelection id true (Some 0) staff [ada; ada; bob] 2 cyd))
  /\ exists S', headerSelection id (Some staff) [ada; ada; bob] = Some S'
                /\ NoDup (keys id S').
Proof.
  destruct (additions_have_unique_keys id staff [ada; ada; bob]) as [Hrow Hheader].
  split; [reflexivity |]. split; [reflexivity |].
  split; [apply Hrow; reflexivity | apply Hheader; reflexivity].
Defined.

Lemma header_toggle_twice_witness :
  someRecordsSelected id (Some [ada; bob]) (Some [eve]) = false
  /\ exists S1 S2,
       headerSelection id (Some [ada; bob]) [eve] = Some S1
       /\ headerSelection id (Some [ada; bob]) S1 = Some S2
       /\ sameKeySet id S2 [eve].
Proof.
  split; [reflexivity |].
  apply (header_toggle_twice id [ada; bob] [eve]). right. reflexivity.
Defined.

(** C2 as stated fails when only some of the records are selected: with
    Ada and Bob on screen and Ada selected, the first click selects both
    and the second one clears the selection, so Ada's key is lost. *)
Lemma header_toggle_twice_counterexample :
  headerSelection id (Some [ada; bob]) [ada] = Some [ada; bob]
  /\ headerSelection id (Some [ada; bob]) [ada; bob] = Some []
  /\ ~ sameKeySet id [] [ada].
Proof.
  split; [reflexivity |]. split; [reflexivity |].
  intros H. apply (H (num 1)). simpl. now left.
Qed.

(** ** Scroll position, pagination and the context menu *)

Section HandlerProperties.

Context {T : Type}.
Variable getId : T -> JsKey.

Lemma run_app (st : @State T) (a b : list Call) :
  run st (a ++ b) = run (run st a) b.
Proof. apply fold_left_app. Qed.

(** [Math.round] against the nearest integer of the exact value. *)
Lemma Qfloor_nearest (v : Q) (n : Z) :
  Qfloor (v + (1 # 2)) = n <-> nearestInteger v n.
Proof.
  unfold nearestInteger.
  pose proof (Qfloor_le (v + (1 # 2))) as L.
  pose proof (Qlt_floor (v + (1 # 2))) as U.
  rewrite inject_Z_plus in U. change (inject_Z 1) with 1%Q in U.
  split.
  - intros <-. split; lra.
  - intros [Hlo Hhi].
    assert (A : (inject_Z (Qfloor (v + (1 # 2))) < inject_Z (n + 1))%Q).
    { rewrite inject_Z_plus. change (inject_Z 1) with 1%Q. lra. }
    assert (B : (inject_Z n < inject_Z (Qfloor (v + (1 # 2)) + 1))%Q).
    { rewrite inject_Z_plus. change (inject_Z 1) with 1%Q. lra. }
    rewrite <- Zlt_Qlt in A, B. lia.
Qed.

Lemma Math_round_value (x : number) (v : Q) :
  valueOf x = Some v -> Math_round x = RInt (Qfloor (v + (1 # 2))).
Proof.
  unfold Math_round. intros H. rewrite H.
  unfold valueOf in H. destruct (Prim2SF x); try discriminate; reflexivity.
Qed.

(** [Math.round], the subtraction and the comparisons on some numbers. *)
Lemma number_examples :
  Math_round 2.5%float = RInt 3
  /\ Math_round (-2.5)%float = RInt (-2)
  /\ Math_round (-0.2)%float = RInt 0
  /\ Math_round 0.49999999999999994%float = RInt 0
  /\ Math_round (minus 500.7 0.2)%float = RInt 501
  /\ Math_round (minus 600.4 100)%float = RInt 500
  /\ Math_round infinity = RInf false
  /\ roundedEq (Math_round nan) (Math_round nan) = false
  /\ strictEq 0%float (-0)%float = true
  /\ sameNumber 0%float (-0)%float = false
  /\ strictEq nan nan = false
  /\ sameNumber nan nan = true
  /\ lessEq nan 1%float = false.
Proof.
  repeat split; vm_compute; reflexivity.
Qed.

Lemma rounded_equal_nearest (x y : number) (a b : Q) :
  valueOf x = Some a -> valueOf y = Some b ->
  roundedEq (Math_round x) (Math_round y) = true
  <-> exists n, nearestInteger a n /\ nearestInteger b n.
Proof.
  intros Hx Hy.
  rewrite (Math_round_value x a Hx), (Math_round_value y b Hy).
  cbn [roundedEq]. rewrite Z.eqb_eq. split.
  - intros E. exists (Qfloor (a + (1 # 2))). split.
    + now apply Qfloor_nearest.
    + apply Qfloor_nearest. now symmetry.
  - intros [n [Ha Hb]].
    apply Qfloor_nearest in Ha. apply Qfloor_nearest in Hb. congruence.
Qed.

(** The flags left by one evaluation of the scroll-position logic. *)
Lemma scroll_vertical (fetching : option bool) (l : Layout) (st : @State T) :
  verticalFlags (run st (onScrollPositionChange fetching l))
  = if truthy fetching || lessEq (tableHeight l) (scrollViewportHeight l)
    then (true, true)
    else (strictEq (scrollTop l) 0%float,
          roundedEq (Math_round (minus (tableHeight l) (scrollTop l)))
                    (Math_round (scrollViewportHeight l))).
Proof.
  unfold onScrollPositionChange, verticalFlags.
  destruct (truthy fetching); cbn [negb orb];
    destruct (lessEq (tableHeight l) (scrollViewportHeight l));
    destruct (strictEq (tableWidth l) (scrollViewportWidth l)); reflexivity.
Qed.

Lemma scroll_horizontal (fetching : option bool) (l : Layout) (st : @State T) :
  horizontalFlags (run st (onScrollPositionChange fetching l))
  = if truthy fetching || strictEq (tableWidth l) (scrollViewportWidth l)
    then (true, true)
    else (strictEq (scrollLeft l) 0%float,
          roundedEq (Math_round (minus (tableWidth l) (scrollLeft l)))
                    (Math_round (scrollViewportWidth l))).
Proof.
  unfold onScrollPositionChange, horizontalFlags.
  destruct (truthy fetching); cbn [negb orb];
    destruct (lessEq (tableHeight l) (scrollViewportHeight l));
    destruct (strictEq (tableWidth l) (scrollViewportWidth l)); reflexivity.
Qed.

Lemma scroll_menu (fetching : option bool) (l : Layout) (st : @State T) :
  contextMenuInfo (run st (onScrollPositionChange fetching l))
  = if truthy fetching then contextMenuInfo st else None.
Proof.
  unfold onScrollPositionChange.
  destruct (truthy fetching); cbn [negb orb];
    destruct (lessEq (tableHeight l) (scrollViewportHeight l));
    destruct (strictEq (tableWidth l) (scrollViewportWidth l)); reflexivity.
Qed.

Lemma scroll_anchor (fetching : option bool) (l : Layout) (st : @State T) :
  lastSelectionChangeIndex (run st (onScrollPositionChange fetching l))
  = lastSelectionChangeIndex st.
Proof.
  unfold onScrollPositionChange.
  destruct (truthy fetching); cbn [negb orb];
    destruct (lessEq (tableHeight l) (scrollViewportHeight l));
    destruct (strictEq (tableWidth l) (scrollViewportWidth l)); reflexivity.
Qed.

(** C5.  Outside a fetch, one evaluation of the scroll-position logic
    sets both vertical flags when the table height is at most the
    viewport height; otherwise it sets the top flag exactly when the
    scroll offset equals zero, and the bottom flag exactly when
    [Math.round] of the computed difference of table height and scroll
    offset equals [Math.round] of the viewport height, that is, when one
    integer is nearest to both values.  A table of height 600 in a
    viewport of height 500, scrolled by 100, is at the bottom and not at
    the top; so is not one of height 500.7 scrolled by 0.2, whose computed
    difference 500.5 rounds to 501. *)
Theorem vertical_flags (fetching : option bool) (l : Layout) (st : @State T) :
  truthy fetching = false ->
  let st' := run st (onScrollPositionChange fetching l) in
  let rest := minus (tableHeight l) (scrollTop l) in
  (lessEq (tableHeight l) (scrollViewportHeight l) = true ->
     scrolledToTop st' = true /\ scrolledToBottom st' = true)
  /\ (lessEq (tableHeight l) (scrollViewportHeight l) = false ->
     (scrolledToTop st' = true <-> strictEq (scrollTop l) 0%float = true)
     /\ (scrolledToBottom st' = true <->
           roundedEq (Math_round rest) (Math_round (scrollViewportHeight l)) = true)
     /\ (forall a b,
           valueOf rest = Some a -> valueOf (scrollViewportHeight l) = Some b ->
           (scrolledToBottom st' = true
            <-> exists n, nearestInteger a n /\ nearestInteger b n)))
  /\ (tableHeight l = 600%float -> scrollViewportHeight l = 500%float ->
      scrollTop l = 100%float ->
      scrolledToBottom st' = true /\ scrolledToTop st' = false)
  /\ (tableHeight l = 500.7%float -> scrollViewportHeight l = 500%float ->
      scrollTop l = 0.2%float ->
      scrolledToBottom st' = false /\ scrolledToTop st' = false).
Proof.
  intros Hidle st' rest. pose proof (scroll_vertical fetching l st) as V.
  fold st' in V. unfold verticalFlags in V. rewrite Hidle in V. cbn [orb] in V.
  split; [| split; [| split]].
  - intros H. rewrite H in V. now inversion V.
  - intros H. rewrite H in V. inversion V as [[Htop Hbottom]].
    split; [now rewrite Htop |]. split; [now rewrite Hbottom |].
    intros a b Ha Hb. rewrite Hbottom. now apply rounded_equal_nearest.
  - intros Hh Hv Ht. rewrite Hh, Hv, Ht in V. now inversion V.
  - intros Hh Hv Ht. rewrite Hh, Hv, Ht in V. now inversion V.
Qed.

(** C10.  The page-change handler scrolls the viewport to the offset
    (0, 0), then calls [onPageChange] with the page it was given, and
    does nothing else: the state of the component is the one before, and
    against a component that shows the footer the event changes
    nothing. *)
Theorem page_change (n : Z) :
  handlePageChange n = [scrollTo 0%float 0%float; @onPageChange T n]
  /\ (forall st : @State T, run st (handlePageChange n) = st)
  /\ (forall w : Widget, step getId w (PageChange n) = w).
Proof.
  split; [reflexivity |]. split; [reflexivity |].
  intros [p l st]. unfold step. simpl.
  destruct (page p) as [current |]; [| reflexivity].
  destruct (Z.eqb current 0); reflexivity.
Qed.

End HandlerProperties.

Section MenuProperties.

Context {T : Type}.
Variable getId : T -> JsKey.

(** C7, as amended.  During a fetch, one evaluation of the
    scroll-position logic sets all four flags, whatever the sizes and
    offsets, and leaves the context-menu state as it is.  The menu is
    closed by the effect keyed on the fetching flag: after the render in
    which the flag turns true no menu is open and the four flags are
    set. *)
Theorem fetching_forces_flags (l : Layout) (st : @State T) :
  let st' := run st (onScrollPositionChange (Some true) l) in
  (scrolledToTop st' = true /\ scrolledToBottom st' = true
   /\ scrolledToLeft st' = true /\ scrolledToRight st' = true)
  /\ contextMenuInfo st' = contextMenuInfo st
  /\ contextMenuInfo (run st (fetchingEffect (Some true))) = None
  /\ (forall (w : Widget) (p' : Props) (l' : Layout),
        truthy (fetching (props w)) = false -> fetching p' = Some true ->
        let w' := step getId w (Render p' l') in
        contextMenuInfo (state w') = None
        /\ verticalFlags (state w') = (true, true)
        /\ horizontalFlags (state w') = (true, true)).
Proof.
  intros st'. split; [| split; [| split]].
  - pose proof (scroll_vertical (Some true) l st) as V.
    pose proof (scroll_horizontal (Some true) l st) as H.
    fold st' in V, H. unfold verticalFlags in V. unfold horizontalFlags in H.
    simpl in V, H. inversion V. inversion H. auto.
  - apply (scroll_menu (Some true)).
  - reflexivity.
  - intros w p' l' Hold Hnew w'. unfold w', step. cbn [state handle effects].
    assert (Hchanged : sameFlag (fetching (props w)) (fetching p') = false).
    { rewrite Hnew. destruct (fetching (props w)) as [[|] |];
        [discriminate | reflexivity | reflexivity]. }
    rewrite Hchanged, Hnew. cbn [andb fetchingEffect truthy].
    rewrite !run_app.
    set (s1 := run (state w) [setContextMenuInfo None]).
    set (s2 := run s1 (onScrollPositionChange (Some true) l')).
    assert (M : contextMenuInfo s2 = None)
      by apply (scroll_menu (Some true) l' s1).
    assert (V : verticalFlags s2 = (true, true))
      by apply (scroll_vertical (Some true) l' s1).
    assert (H : horizontalFlags s2 = (true, true))
      by apply (scroll_horizontal (Some true) l' s1).
    destruct (String.eqb _ _); simpl; auto.
Qed.

Lemma rendered_children (info : ContextMenuInfo) (its : list MenuItem) :
  rendered (map (renderItem info) its)
  = map (fun item : @MenuItem T =>
           {| itemKey := key item;
              itemDisabled := resolve (disabled item) (record info);
              onClick := [setContextMenuInfo None;
                          itemOnClick (key item) (record info)] |})
        (filter (fun item => negb (resolve (hidden item) (record info))) its).
Proof.
  induction its as [|item its IH]; [reflexivity |].
  simpl. unfold renderItem at 1.
  destruct (resolve (hidden item) (record info)); simpl; now rewrite IH.
Qed.

(** C8.  With a menu open for a record, the buttons on screen are those
    of the items that are not hidden for that record, in order; an item
    hidden for the record gives no element.  The click handler of a
    button first sets the context-menu state to closed and then calls
    the item's [onClick] with the record of the open menu, which leaves
    the menu closed.  The state holds at most one menu: a right-click
    that opens a menu replaces whatever was stored. *)
Theorem menu_item_click (m : RowContextMenu) (info : ContextMenuInfo) (st : @State T) :
  exists rm,
    renderMenu (Some m) (Some info) = Some rm
    /\ menuTop rm = top info /\ menuLeft rm = left info
    /\ rendered (children rm)
       = map (fun item : @MenuItem T =>
                {| itemKey := key item;
                   itemDisabled := resolve (disabled item) (record info);
                   onClick := [setContextMenuInfo None;
                               itemOnClick (key item) (record info)] |})
             (filter (fun item => negb (resolve (hidden item) (record info)))
                     (items m))
    /\ (forall item, In item (items m) ->
          resolve (hidden item) (record info) = true ->
          renderItem info item = None)
    /\ (forall i, In i (rendered (children rm)) ->
          exists item, In item (items m)
            /\ resolve (hidden item) (record info) = false
            /\ onClick i = [setContextMenuInfo None;
                            itemOnClick (key item) (record info)]
            /\ contextMenuInfo (run st (onClick i)) = None)
    /\ (forall r y x, resolve (menuDisabled m) r = false ->
          contextMenuInfo (run st (rowContextMenuEvent (Some m) r y x))
          = Some {| top := y; left := x; record := r |}).
Proof.
  eexists. split; [reflexivity |]. cbn [menuTop menuLeft children].
  split; [reflexivity |]. split; [reflexivity |].
  split; [apply rendered_children |].
  split; [| split].
  - intros item _ Hhidden. unfold renderItem. now rewrite Hhidden.
  - intros i Hi. rewrite rendered_children in Hi. apply in_map_iff in Hi.
    destruct Hi as [item [<- Hitem]]. apply filter_In in Hitem.
    destruct Hitem as [Hin Hshown]. apply negb_true_iff in Hshown.
    exists item. repeat split; assumption || reflexivity.
  - intros r y x Henabled. unfold rowContextMenuEvent.
    rewrite Henabled. reflexivity.
Qed.

(** Clicking an enabled button of the open menu, as an event of the
    component. *)
Lemma menu_item_click_event (w : Widget) (m : RowContextMenu)
    (info : ContextMenuInfo) (rm : RenderedMenu) (position : nat) (i : RenderedItem) :
  rowContextMenu (props w) = Some m ->
  contextMenuInfo (state w) = Some info ->
  renderMenu (Some m) (Some info) = Some rm ->
  nth_error (rendered (children rm)) position = Some i ->
  itemDisabled i = false ->
  handle getId w (MenuItemClick position)
    = [setContextMenuInfo None; itemOnClick (itemKey i) (record info)]
  /\ contextMenuInfo (state (step getId w (MenuItemClick position))) = None.
Proof.
  intros Hm Hinfo Hrm Hnth Henabled.
  assert (Hcalls : handle getId w (MenuItemClick position) = onClick i).
  { unfold handle. now rewrite Hm, Hinfo, Hrm, Hnth, Henabled. }
  assert (Hclick : onClick i
            = [setContextMenuInfo None; itemOnClick (itemKey i) (record info)]).
  { injection Hrm as <-. cbn [children] in Hnth.
    rewrite rendered_children in Hnth. apply nth_error_In in Hnth.
    apply in_map_iff in Hnth. destruct Hnth as [item [<- _]]. reflexivity. }
  split; [congruence |].
  unfold step. cbn [state]. now rewrite Hcalls, Hclick.
Qed.

(** The effect keyed on [recordIdsString] runs last and unsets the
    anchor. *)
Lemma render_resets_anchor (w : Widget) (p' : Props) (l' : Layout) :
  recordIdsString getId (records (props w)) <> recordIdsString getId (records p') ->
  lastSelectionChangeIndex (state (step getId w (Render p' l'))) = None.
Proof.
  intros Hdiff. unfold step. cbn [state handle effects].
  destruct (String.eqb_spec (recordIdsString getId (records (props w)))
              (recordIdsString getId (records p'))) as [E | _];
    [contradiction |].
  now rewrite !run_app.
Qed.

(** Without an anchor a shift-click is a plain click. *)
Lemma shift_without_anchor (w : Widget) (j : nat) :
  lastSelectionChangeIndex (state w) = None ->
  handle getId w (RowCheckbox j true) = handle getId w (RowCheckbox j false).
Proof.
  intros Hnone. unfold handle. rewrite Hnone. reflexivity.
Qed.

End MenuProperties.

(** ** The handler claims on the sample data *)

Lemma vertical_flags_witness :
  let idle := run (@initialState Employee)
                (onScrollPositionChange (Some false) quietLayout) in
  let fit := run (@initialState Employee)
               (onScrollPositionChange None
                  (layoutOf 800 500 800 500 0 0)%float) in
  let bottom := run (@initialState Employee)
                  (onScrollPositionChange (Some false)
                     (layoutOf 800 600 800 500 100 0)%float) in
  let jitter := run (@initialState Employee)
                  (onScrollPositionChange None
                     (layoutOf 800 500.7 800 500 0.2 0)%float) in
  (scrolledToTop idle = true /\ scrolledToBottom idle = false)
  /\ (scrolledToTop fit = true /\ scrolledToBottom fit = true)
  /\ (scrolledToBottom bottom = true /\ scrolledToTop bottom = false)
  /\ (scrolledToBottom jitter = false /\ scrolledToTop jitter = false).
Proof.
  intros idle fit bottom jitter.
  destruct (vertical_flags (Some false) quietLayout (@initialState Employee) eq_refl)
    as (_ & Hover & _ & _).
  destruct (vertical_flags None (layoutOf 800 500 800 500 0 0)%float
              (@initialState Employee) eq_refl) as (Hfit & _ & _ & _).
  destruct (vertical_flags (Some false) (layoutOf 800 600 800 500 100 0)%float
              (@initialState Employee) eq_refl) as (_ & _ & Hscenario & _).
  destruct (vertical_flags None (layoutOf 800 500.7 800 500 0.2 0)%float
              (@initialState Employee) eq_refl) as (_ & _ & _ & Hjitter).
  split; [| split; [| split]].
  - destruct (Hover eq_refl) as (Htop & _ & _).
    split; [apply Htop; reflexivity | reflexivity].
  - apply Hfit. reflexivity.
  - apply Hscenario; reflexivity.
  - apply Hjitter; reflexivity.
Defined.

(** C3.  The horizontal guard is not the mirror of the vertical one.  On
    a table of width 400 in a viewport of width 500, with no scroll
    offset and outside a fetch, the content is not wider than the
    viewport, and yet the evaluation of the scroll-position logic leaves
    the right flag unset, so that the right shadow shows; the same sizes
    taken as heights set both vertical flags. *)
Theorem narrow_table_right_flag (st : @State Employee) :
  let l := (layoutOf 400 400 500 500 0 0)%float in
  let st' := run st (onScrollPositionChange (Some false) l) in
  lessEq (tableWidth l) (scrollViewportWidth l) = true
  /\ verticalFlags st' = (true, true)
  /\ horizontalFlags st' = (true, false)
  /\ rightShadowVisible st' = true.
Proof.
  intros l st'.
  pose proof (scroll_vertical (Some false) l st) as V.
  pose proof (scroll_horizontal (Some false) l st) as H.
  fold st' in V, H.
  split; [reflexivity |]. split; [exact V |]. split; [exact H |].
  unfold rightShadowVisible.
  change (scrolledToRight st') with (snd (horizontalFlags st')).
  now rewrite H.
Qed.

Lemma fetching_forces_flags_witness :
  let opened : @State Employee :=
    run initialState [setContextMenuInfo (Some {| top := 40%float; left := 60%float; record := cyd |})] in
  let w : Widget := {| props := propsOf false staff []; layout := quietLayout;
                       state := opened |} in
  let w' := step id w (Render (propsOf true staff []) quietLayout) in
  contextMenuInfo (state w') = None
  /\ verticalFlags (state w') = (true, true)
  /\ horizontalFlags (state w') = (true, true).
Proof.
  intros opened w w'.
  destruct (fetching_forces_flags id quietLayout opened) as (_ & _ & _ & Hrender).
  apply (Hrender w (propsOf true staff []) quietLayout); reflexivity.
Defined.

(** C7 as stated fails for a menu opened during the fetch: the table of
    [busyWidget] is fetching and shows the menu of its third row, and the
    evaluation of the scroll-position logic that ended its trace left the
    menu open. *)
Lemma fetching_forces_flags_counterexample :
  fetching (props busyWidget) = Some true
  /\ contextMenuInfo (state busyWidget)
     = Some {| top := 40%float; left := 60%float; record := cyd |}
  /\ contextMenuInfo
       (run (state busyWidget)
          (onScrollPositionChange (Some true) (layout busyWidget)))
     = Some {| top := 40%float; left := 60%float; record := cyd |}.
Proof.
  repeat split.
Qed.

Lemma menu_item_click_witness :
  let info := {| top := 40%float; left := 60%float; record := ada |} in
  exists rm,
    renderMenu (Some menu) (Some info) = Some rm
    /\ map itemKey (rendered (children rm)) = ["edit"; "delete"]%string
    /\ forall i, In i (rendered (children rm)) ->
         contextMenuInfo
           (run (run initialState [setContextMenuInfo (Some info)]) (onClick i)) = None.
Proof.
  intros info.
  destruct (menu_item_click menu info (run initialState [setContextMenuInfo (Some info)]))
    as (rm & Hrm & _ & _ & Hitems & _ & Hclick & _).
  exists rm. split; [exact Hrm |]. split.
  - rewrite Hitems. reflexivity.
  - intros i Hi. destruct (Hclick i Hi) as (_ & _ & _ & _ & Hclosed). exact Hclosed.
Defined.

(** C4.  The change-detection string does not separate all key
    sequences.  The table of [staleWidget] had its first row toggled
    while it showed one record keyed [a:b], and then received two records
    keyed [a] and [b]: the key sequences differ, the joined strings are
    both [a:b], the anchor is still row 0, and a shift-click on the second
    row hands over both rows where a plain click hands over one. *)
Theorem key_collision_keeps_anchor :
  keys id [tagged "a:b"] <> keys id [tagged "a"; tagged "b"]
  /\ recordIdsString id (Some [tagged "a:b"]) = "a:b"%string
  /\ recordIdsString id (Some [tagged "a"; tagged "b"]) = "a:b"%string
  /\ records (props staleWidget) = Some [tagged "a"; tagged "b"]
  /\ lastSelectionChangeIndex (state staleWidget) = Some 0
  /\ handle id staleWidget (RowCheckbox 1 true)
     = [onSelectedRecordsChange [tagged "a"; tagged "b"];
        setLastSelectionChangeIndex (Some 1)]
  /\ handle id staleWidget (RowCheckbox 1 false)
     = [onSelectedRecordsChange [tagged "b"];
        setLastSelectionChangeIndex (Some 1)].
Proof.
  split; [discriminate |]. repeat split.
Qed.

(** ** Further properties of the selection logic *)

Section SelectionExtras.

Context {T : Type}.
Variable getId : T -> JsKey.



Lemma allRecordsSelected_intro (R S : list T) :
  S <> [] ->
  (forall k, In k (keys getId R) -> In k (keys getId S)) ->
  allRecordsSelected getId (Some R) (Some S) = true.
Proof.
  intros Hne Hall.
  destruct (allRecordsSelected getId (Some R) (Some S)) eqn:E; [reflexivity |].
  exfalso. apply Hne. now apply (allRecordsSelected_false getId R).
Qed.

Lemma someRecordsSelected_intro (R S : list T) :
  (forall k, In k (keys getId R) -> ~ In k (keys getId S)) ->
  someRecordsSelected getId (Some R) (Some S) = false.
Proof.
  intros Hnone.
  destruct (someRecordsSelected getId (Some R) (Some S)) eqn:E; [| reflexivity].
  exfalso. unfold someRecordsSelected in E. simpl in E.
  apply andb_true_iff in E. destruct E as [_ E].
  unfold some in E. apply existsb_exists in E. destruct E as [k [Hk Hin]].
  apply includes_In in Hin. exact (Hnone k Hk Hin).
Qed.

Lemma skipn_nth_error (l : list T) : forall n x,
  nth_error l n = Some x -> skipn n l = x :: skipn (S n) l.
Proof.
  induction l as [|y l IH]; intros [|n] x H; try discriminate.
  - now injection H as ->.
  - simpl in H. now apply IH.
Qed.

Lemma recordsInterval_single (R : list T) (j : nat) (r : T) :
  nth_error R j = Some r -> recordsInterval R j j = [r].
Proof.
  intros H. rewrite recordsInterval_inclusive. unfold inclusiveInterval.
  rewrite Nat.min_id, Nat.max_id, (skipn_nth_error R j r H).
  replace (S j - j) with 1 by lia. reflexivity.
Qed.

Lemma anchor_in_interval (R : list T) (a j : nat) (r : T) :
  nth_error R a = Some r ->
  In r (inclusiveInterval R (Nat.min a j) (Nat.max a j)).
Proof.
  intros H. rewrite Nat.min_comm, Nat.max_comm. now apply clicked_in_interval.
Qed.

Lemma baseUniq_seen_ext (l : list T) : forall seen seen',
  (forall k, In k seen <-> In k seen') ->
  baseUniq getId seen l = baseUniq getId seen' l.
Proof.
  induction l as [|v l IH]; intros seen seen' Hsame; simpl; [reflexivity |].
  assert (E : includes seen (getId v) = includes seen' (getId v)).
  { apply eq_iff_eq_true. rewrite !includes_In. apply Hsame. }
  rewrite E. destruct (includes seen' (getId v)).
  - now apply IH.
  - f_equal. apply IH. intros k. simpl. rewrite Hsame. reflexivity.
Qed.

Lemma baseUniq_app (a b : list T) : forall seen,
  baseUniq getId seen (a ++ b)
  = baseUniq getId seen a
    ++ baseUniq getId (keys getId (baseUniq getId seen a) ++ seen) b.
Proof.
  induction a as [|v a IH]; intros seen; simpl; [reflexivity |].
  destruct (includes seen (getId v)); [apply IH |].
  simpl. f_equal. rewrite IH. f_equal.
  apply baseUniq_seen_ext. intros k.
  rewrite !in_app_iff. simpl. rewrite in_app_iff. tauto.
Qed.

Lemma baseUniq_In (l : list T) : forall seen x,
  In x (baseUniq getId seen l) -> In x l /\ ~ In (getId x) seen.
Proof.
  induction l as [|v l IH]; intros seen x H; simpl in *; [contradiction |].
  destruct (includes seen (getId v)) eqn:E.
  - destruct (IH _ _ H). tauto.
  - destruct H as [<- | H].
    + split; [now left | now apply includes_false].
    + destruct (IH _ _ H) as [H1 H2]. split; [now right |].
      intros Hin. apply H2. now right.
Qed.

(** With distinct keys in the list, de-duplicating the list followed by
    more records keeps the list and appends records of the addition whose
    keys are new. *)
Lemma uniqBy_extends (S X : list T) :
  NoDup (keys getId S) ->
  exists added,
    uniqBy getId (S ++ X) = S ++ added
    /\ forall x, In x added -> In x X /\ ~ In (getId x) (keys getId S).
Proof.
  intros Hnd. unfold uniqBy. rewrite baseUniq_app.
  fold (uniqBy getId S). rewrite (uniqBy_fixed getId S Hnd).
  eexists. split; [reflexivity |].
  intros x Hx. apply baseUniq_In in Hx. destruct Hx as [H1 H2].
  split; [assumption |]. intros Hin. apply H2. apply in_app_iff. now left.
Qed.


(** X2.  On a table with rows, a click on the header checkbox flips its checked
    state: it hands over a selection that holds every record when not all
    were selected, and none of the records when all were. *)
Theorem header_toggle_flips_checkbox (R S : list T) :
  R <> [] ->
  exists S1,
    headerSelection getId (Some R) S = Some S1
    /\ allRecordsSelected getId (Some R) (Some S1)
       = negb (allRecordsSelected getId (Some R) (Some S))
    /\ (allRecordsSelected getId (Some R) (Some S) = true ->
        someRecordsSelected getId (Some R) (Some S1) = false).
Proof.
  intros Hrows. destruct R as [|r R]; [contradiction |].
  destruct (headerSelection_keys getId (r :: R) S) as [S1 [E1 K1]].
  exists S1. split; [assumption |].
  assert (Hr : In (getId r) (keys getId (r :: R))) by now left.
  destruct (allRecordsSelected getId (Some (r :: R)) (Some S)) eqn:A; simpl.
  - split.
    + destruct (allRecordsSelected getId (Some (r :: R)) (Some S1)) eqn:A1;
        [| reflexivity].
      pose proof (allRecordsSelected_true getId _ _ A1 _ Hr) as H.
      apply K1 in H. tauto.
    + intros _. apply someRecordsSelected_intro. intros k Hk Hin.
      apply K1 in Hin. tauto.
  - split; [| discriminate].
    apply allRecordsSelected_intro.
    + intros ->. apply (K1 (getId r)). now right.
    + intros k Hk. apply K1. now right.
Qed.

(** X3.  A click on the header checkbox leaves the selection status of every
    record whose key is not in the record list as it was. *)
Theorem header_toggle_keeps_other_keys (R S : list T) :
  exists S1,
    headerSelection getId (Some R) S = Some S1
    /\ forall x, ~ In (getId x) (keys getId R) ->
         selected getId (Some S1) x = selected getId (Some S) x.
Proof.
  destruct (headerSelection_keys getId R S) as [S1 [E1 K1]].
  exists S1. split; [assumption |].
  intros x Hx. apply eq_iff_eq_true. rewrite !selected_In, K1.
  destruct (allRecordsSelected getId (Some R) (Some S)); tauto.
Qed.

(** X4.  The header handler fails, before it calls back, exactly when the
    record list is [undefined]. *)
Theorem header_toggle_needs_records (rs : option (list T)) (S : list T) :
  (headerSelection getId rs S = None <-> rs = None)
  /\ (rs = None -> headerSelectionChange getId rs S = [])
  /\ (forall R, rs = Some R ->
        exists S1, headerSelectionChange getId rs S = [onSelectedRecordsChange S1]).
Proof.
  destruct rs as [R |].
  - destruct (headerSelection_keys getId R S) as [S1 [E1 _]].
    unfold headerSelectionChange. rewrite E1.
    split; [split; discriminate |]. split; [discriminate |].
    intros R' _. now exists S1.
  - split; [split; reflexivity |]. split; [reflexivity | discriminate].
Qed.

(** X5.  A shift-click on the row that is the anchor does what a plain click on
    it does. *)
Theorem shift_click_on_anchor (R S : list T) (j : nat) (r : T) :
  nth_error R j = Some r ->
  rowSelection getId true (Some j) R S j r
  = rowSelection getId false (Some j) R S j r.
Proof.
  intros H. unfold rowSelection. rewrite (recordsInterval_single R j r H).
  destruct (selected getId (Some S) r); [| reflexivity].
  unfold differenceBy. apply filter_ext. intros x.
  unfold includes. simpl. now rewrite orb_false_r.
Qed.

(** X6.  With the anchor and the clicked row both on the table, a shift-click
    works on one more record than the distance between the two rows, and
    on records of the record list only. *)
Theorem interval_length (R : list T) (a j : nat) :
  a < List.length R -> j < List.length R ->
  List.length (recordsInterval R a j) = S (Nat.max a j - Nat.min a j)
  /\ forall x, In x (recordsInterval R a j) -> In x R.
Proof.
  intros Ha Hj. rewrite recordsInterval_inclusive. unfold inclusiveInterval.
  split.
  - rewrite length_firstn, length_skipn. lia.
  - intros x Hx.
    rewrite <- (firstn_skipn (Nat.min a j) R). apply in_app_iff. right.
    rewrite <- (firstn_skipn (S (Nat.max a j) - Nat.min a j)
                  (skipn (Nat.min a j) R)).
    apply in_app_iff. now left.
Qed.

(** X7.  A plain click on an unselected row followed by a shift-click on
    another unselected row, the second given the result of the first as
    the selection, selects the rows between the two and changes nothing
    else. *)
Theorem click_then_shift_click (R S : list T) (a j : nat) (ra rj : T)
    (last : option nat) :
  nth_error R a = Some ra -> nth_error R j = Some rj ->
  selected getId (Some S) ra = false -> selected getId (Some S) rj = false ->
  getId ra <> getId rj ->
  let interval := inclusiveInterval R (Nat.min a j) (Nat.max a j) in
  let S1 := rowSelection getId false last R S a ra in
  let S2 := rowSelection getId true (Some a) R S1 j rj in
  forall x, selected getId (Some S2) x
            = selected getId (Some S) x
              || includes (keys getId interval) (getId x).
Proof.
  intros Ha Hj Sa Sj Hne interval S1 S2 x.
  assert (E1 : S1 = uniqBy getId (S ++ [ra])).
  { unfold S1, rowSelection. rewrite Sa. destruct last; reflexivity. }
  assert (Sj1 : selected getId (Some S1) rj = false).
  { apply selected_not_In. rewrite E1, keys_uniqBy, keys_app.
    apply selected_not_In in Sj. simpl. intuition. }
  assert (E2 : S2 = uniqBy getId (S1 ++ interval)).
  { unfold S2, rowSelection. rewrite Sj1, recordsInterval_inclusive. reflexivity. }
  assert (Hra : In (getId ra) (keys getId interval)).
  { apply in_map. now apply anchor_in_interval. }
  apply eq_iff_eq_true.
  rewrite orb_true_iff, includes_In, !selected_In.
  rewrite E2, keys_uniqBy, keys_app, E1, keys_uniqBy, keys_app. simpl.
  split; [| tauto].
  intros [[H | [<- | []]] | H]; tauto.
Qed.

(** X8.  A shift-click that selects a range, followed by a shift-click on the
    former anchor, the second given the result of the first as the
    selection, leaves selected what was selected before outside the
    range. *)
Theorem shift_select_then_deselect (R S : list T) (a j : nat) (ra rj : T) :
  nth_error R a = Some ra -> nth_error R j = Some rj ->
  selected getId (Some S) rj = false ->
  let interval := inclusiveInterval R (Nat.min a j) (Nat.max a j) in
  let S1 := rowSelection getId true (Some a) R S j rj in
  let S2 := rowSelection getId true (Some j) R S1 a ra in
  forall x, selected getId (Some S2) x
            = selected getId (Some S) x
              && negb (includes (keys getId interval) (getId x)).
Proof.
  intros Ha Hj Sj interval S1 S2 x.
  assert (E1 : S1 = uniqBy getId (S ++ interval)).
  { unfold S1, rowSelection. rewrite Sj, recordsInterval_inclusive. reflexivity. }
  assert (Sa1 : selected getId (Some S1) ra = true).
  { apply selected_In. rewrite E1, keys_uniqBy, keys_app. right.
    apply in_map. now apply anchor_in_interval. }
  assert (E2 : S2 = filter (fun y => negb (includes (keys getId interval) (getId y))) S1).
  { unfold S2, rowSelection. rewrite Sa1, (recordsInterval_sym R j a),
      recordsInterval_inclusive. reflexivity. }
  apply eq_iff_eq_true.
  rewrite andb_true_iff, negb_true_iff, includes_false, !selected_In.
  rewrite E2, keys_without, E1, keys_uniqBy, keys_app. tauto.
Qed.

(** X9.  When the selection has distinct keys, an operation that adds records
    keeps the selection as it is, in its order, and appends to it: the
    click on an unselected row and the header checkbox when not all
    records are selected. *)
Theorem additions_extend_selection (R S : list T) :
  NoDup (keys getId S) ->
  (forall shiftKey last j r,
      selected getId (Some S) r = false ->
      exists added,
        rowSelection getId shiftKey last R S j r = S ++ added
        /\ forall x, In x added -> ~ In (getId x) (keys getId S))
  /\ (allRecordsSelected getId (Some R) (Some S) = false ->
      exists added,
        headerSelection getId (Some R) S = Some (S ++ added)
        /\ forall x, In x added -> In x R /\ ~ In (getId x) (keys getId S)).
Proof.
  intros Hnd. split.
  - intros shiftKey last j r Hsel. unfold rowSelection. rewrite Hsel.
    destruct shiftKey, last;
      match goal with
      | |- context [uniqBy getId (S ++ ?X)] =>
          destruct (uniqBy_extends S X Hnd) as [added [E Hadded]]
      end;
      exists added; (split; [exact E | intros x Hx; now apply Hadded]).
  - intros Hall. unfold headerSelection. rewrite Hall.
    destruct (uniqBy_extends S R Hnd) as [added [E Hadded]].
    exists added. split; [now rewrite E | exact Hadded].
Qed.

End SelectionExtras.

(** ** Further properties of the handlers and of the transition system *)

Section WidgetExtras.

Context {T : Type}.
Variable getId : T -> JsKey.

Lemma run_without_flags (cs : list (@Call T)) : forall st,
  Forall (fun c => setsFlag c = false) cs ->
  verticalFlags (run st cs) = verticalFlags st
  /\ horizontalFlags (run st cs) = horizontalFlags st.
Proof.
  induction cs as [|c cs IH]; intros st H; [now split |].
  inversion H as [|? ? Hc Hcs]; subst.
  change (run st (c :: cs)) with (run (apply st c) cs).
  destruct (IH (apply st c) Hcs) as [V Hz]. rewrite V, Hz.
  destruct c; try discriminate; now split.
Qed.

Lemma run_without_menu (cs : list (@Call T)) : forall st,
  Forall (fun c => setsMenu c = false) cs ->
  contextMenuInfo (run st cs) = contextMenuInfo st.
Proof.
  induction cs as [|c cs IH]; intros st H; [reflexivity |].
  inversion H as [|? ? Hc Hcs]; subst.
  change (run st (c :: cs)) with (run (apply st c) cs).
  rewrite (IH (apply st c) Hcs).
  destruct c; try discriminate; reflexivity.
Qed.

Lemma run_without_anchor (cs : list (@Call T)) : forall st,
  Forall (fun c => setsAnchor c = false) cs ->
  lastSelectionChangeIndex (run st cs) = lastSelectionChangeIndex st.
Proof.
  induction cs as [|c cs IH]; intros st H; [reflexivity |].
  inversion H as [|? ? Hc Hcs]; subst.
  change (run st (c :: cs)) with (run (apply st c) cs).
  rewrite (IH (apply st c) Hcs).
  destruct c; try discriminate; reflexivity.
Qed.

(** The click handler of every button of a rendered menu. *)
Lemma rendered_onClick (info : @ContextMenuInfo T) (its : list (@MenuItem T))
    (i : @RenderedItem T) :
  In i (rendered (map (renderItem info) its)) ->
  onClick i = [setContextMenuInfo None; itemOnClick (itemKey i) (record info)].
Proof.
  rewrite rendered_children. intros H. apply in_map_iff in H.
  destruct H as [item [<- _]]. reflexivity.
Qed.

Lemma menuItemClick_calls (w : @Widget T) (position : nat) :
  handle getId w (MenuItemClick position) = []
  \/ exists k r,
       handle getId w (MenuItemClick position)
       = [setContextMenuInfo None; itemOnClick k r].
Proof.
  unfold handle, renderMenu.
  destruct (rowContextMenu (props w)) as [m |]; [| now left].
  destruct (contextMenuInfo (state w)) as [info |]; [| now left].
  cbn [children].
  destruct (nth_error (rendered (map (renderItem info) (items m))) position)
    as [i |] eqn:E; [| now left].
  destruct (itemDisabled i); [now left |].
  right. exists (itemKey i), (record info).
  apply rendered_onClick with (its := items m). eapply nth_error_In. exact E.
Qed.

(** The calls of an event that is neither a render nor a scroll set no
    flag. *)
Lemma handle_sets_no_flag (w : @Widget T) (e : Event) :
  (forall p l, e <> Render p l) -> (forall y x, e <> Scroll y x) ->
  Forall (fun c => setsFlag c = false) (handle getId w e).
Proof.
  intros Hrender Hscroll. destruct e as [p l | y x | | i s | i y x | n | | n].
  - now destruct (Hrender p l).
  - now destruct (Hscroll y x).
  - unfold handle, headerSelectionChange.
    destruct (selectedRecords (props w)); [| constructor].
    destruct (headerSelection getId _ _); repeat constructor.
  - unfold handle, rowSelectionChange.
    destruct (records (props w)); [| constructor].
    destruct (selectedRecords (props w)); [| constructor].
    destruct (nth_error _ _); repeat constructor.
  - unfold handle, rowContextMenuEvent.
    destruct (records (props w)); [| constructor].
    destruct (nth_error _ _); [| constructor].
    destruct (rowContextMenu (props w)); [| constructor].
    destruct (negb _); repeat constructor.
  - destruct (menuItemClick_calls w n) as [-> | [k [r ->]]]; repeat constructor.
  - unfold handle, renderMenu.
    destruct (rowContextMenu (props w)); [| constructor].
    destruct (contextMenuInfo (state w)); repeat constructor.
  - unfold handle, handlePageChange.
    destruct (page (props w)) as [current |]; [| constructor].
    destruct (Z.eqb current 0); repeat constructor.
Qed.

(** Calls that close the menu or leave it alone, and calls that unset the
    anchor or leave it alone. *)
Lemma run_only_closes (cs : list (@Call T)) : forall st,
  Forall (fun c => c = setContextMenuInfo None \/ setsMenu c = false) cs ->
  contextMenuInfo (run st cs) = None
  \/ contextMenuInfo (run st cs) = contextMenuInfo st.
Proof.
  induction cs as [|c cs IH]; intros st H; [now right |].
  inversion H as [|? ? Hc Hcs]; subst.
  change (run st (c :: cs)) with (run (apply st c) cs).
  destruct (IH (apply st c) Hcs) as [E | E]; [now left |].
  rewrite E. destruct Hc as [-> | Hc]; [now left |].
  right. destruct c; try discriminate; reflexivity.
Qed.

Lemma run_only_unsets (cs : list (@Call T)) : forall st,
  Forall (fun c => c = setLastSelectionChangeIndex None \/ setsAnchor c = false) cs ->
  lastSelectionChangeIndex (run st cs) = None
  \/ lastSelectionChangeIndex (run st cs) = lastSelectionChangeIndex st.
Proof.
  induction cs as [|c cs IH]; intros st H; [now right |].
  inversion H as [|? ? Hc Hcs]; subst.
  change (run st (c :: cs)) with (run (apply st c) cs).
  destruct (IH (apply st c) Hcs) as [E | E]; [now left |].
  rewrite E. destruct Hc as [-> | Hc]; [now left |].
  right. destruct c; try discriminate; reflexivity.
Qed.

Ltac split_conditions :=
  repeat match goal with
         | |- context [if ?c then _ else _] => destruct c
         end.

Ltac each_call :=
  repeat (apply Forall_cons;
          [first [left; reflexivity | right; reflexivity | reflexivity] |]);
  apply Forall_nil.

Lemma effects_only_close (prev : option (@Props T * Layout)) (p : @Props T)
    (l : Layout) :
  Forall (fun c => c = setContextMenuInfo None \/ setsMenu c = false)
         (effects getId prev p l).
Proof.
  unfold effects, fetchingEffect, onScrollPositionChange, recordIdsEffect.
  destruct prev as [[p0 l0] |]; split_conditions; cbn [app]; each_call.
Qed.

Lemma effects_only_unset (prev : option (@Props T * Layout)) (p : @Props T)
    (l : Layout) :
  Forall (fun c => c = setLastSelectionChangeIndex None \/ setsAnchor c = false)
         (effects getId prev p l).
Proof.
  unfold effects, fetchingEffect, onScrollPositionChange, recordIdsEffect.
  destruct prev as [[p0 l0] |]; split_conditions; cbn [app]; each_call.
Qed.

Lemma round_equal_close (x y : number) (a b : Q) :
  valueOf x = Some a -> valueOf y = Some b ->
  roundedEq (Math_round x) (Math_round y) = true ->
  (a - b < 1)%Q /\ (b - a < 1)%Q.
Proof.
  intros Hx Hy H. apply (rounded_equal_nearest x y a b Hx Hy) in H.
  destruct H as [n [[La Ua] [Lb Ub]]]. split; lra.
Qed.

Lemma round_equal_same (x y : number) (a b : Q) :
  valueOf x = Some a -> valueOf y = Some b ->
  (a == b)%Q -> roundedEq (Math_round x) (Math_round y) = true.
Proof.
  intros Hx Hy H. apply (rounded_equal_nearest x y a b Hx Hy).
  exists (Qfloor (a + (1 # 2))).
  assert (Ha : nearestInteger a (Qfloor (a + (1 # 2))))
    by now apply Qfloor_nearest.
  split; [exact Ha |]. destruct Ha as [L U]. split; lra.
Qed.

(** X10.  After an evaluation of the scroll-position logic during a fetch, or on
    a table that is not higher than its viewport and exactly as wide, no
    shadow is shown: none around the scroll area, none under the header,
    none beside the selection column. *)
Theorem no_shadow_when_fitting_or_fetching (p : @Props T) (l : Layout)
    (st : @State T) :
  fetching p = Some true
  \/ (lessEq (tableHeight l) (scrollViewportHeight l) = true
      /\ strictEq (tableWidth l) (scrollViewportWidth l) = true) ->
  let st' := run st (onScrollPositionChange (fetching p) l) in
  leftShadowVisible p st' = false
  /\ rightShadowVisible st' = false
  /\ bottomShadowVisible st' = false
  /\ headerBottomShadowVisible st' = false
  /\ selectionVisibleAndNotScrolledToLeft p st' = false.
Proof.
  intros H st'.
  pose proof (scroll_vertical (fetching p) l st) as V.
  pose proof (scroll_horizontal (fetching p) l st) as Hz.
  fold st' in V, Hz.
  assert (C1 : truthy (fetching p)
               || lessEq (tableHeight l) (scrollViewportHeight l) = true).
  { destruct H as [-> | [H _]]; [reflexivity |].
    rewrite H. apply orb_true_r. }
  assert (C2 : truthy (fetching p)
               || strictEq (tableWidth l) (scrollViewportWidth l) = true).
  { destruct H as [-> | [_ H]]; [reflexivity |].
    rewrite H. apply orb_true_r. }
  rewrite C1 in V. rewrite C2 in Hz.
  unfold verticalFlags in V. unfold horizontalFlags in Hz.
  injection V as Vt Vb. injection Hz as Hl Hr.
  unfold leftShadowVisible, rightShadowVisible, bottomShadowVisible,
    headerBottomShadowVisible, selectionVisibleAndNotScrolledToLeft.
  rewrite Vt, Vb, Hl, Hr, orb_true_r, andb_false_r. auto.
Qed.

(** X11.  The left shadow is drawn by exactly one element when the table is
    scrolled away from its left edge, by the scroll area on a table
    without selection and by the selection column on a table with it,
    and by none otherwise. *)
Theorem left_shadow_drawn_once (p : @Props T) (st : @State T) :
  leftShadowVisible p st
  = negb (scrolledToLeft st) && negb (selectionVisible p)
  /\ selectionVisibleAndNotScrolledToLeft p st
     = negb (scrolledToLeft st) && selectionVisible p
  /\ xorb (leftShadowVisible p st) (selectionVisibleAndNotScrolledToLeft p st)
     = negb (scrolledToLeft st).
Proof.
  unfold leftShadowVisible, selectionVisibleAndNotScrolledToLeft.
  destruct (selectionVisible p), (scrolledToLeft st); auto.
Qed.

(** X12.  An evaluation of the scroll-position logic leaves flags that depend
    on the fetching flag and on the sizes and offsets only, and a second
    evaluation on the same values changes nothing. *)
Theorem scroll_evaluation_idempotent (busy : option bool) (l : Layout)
    (st : @State T) :
  let calls := onScrollPositionChange busy l in
  run (run st calls) calls = run st calls
  /\ forall st2 : @State T,
       verticalFlags (run st2 calls) = verticalFlags (run st calls)
       /\ horizontalFlags (run st2 calls) = horizontalFlags (run st calls).
Proof.
  intros calls. split.
  - unfold calls, onScrollPositionChange.
    destruct (truthy busy); cbn [negb orb];
      destruct (lessEq (tableHeight l) (scrollViewportHeight l));
      destruct (strictEq (tableWidth l) (scrollViewportWidth l)); reflexivity.
  - intros st2. unfold calls. now rewrite !scroll_vertical, !scroll_horizontal.
Qed.

(** X13.  Outside a fetch, on a table higher than its viewport, the bottom
    flag is set when the computed difference of table height and scroll
    offset has exactly the value of the viewport height, and only when
    the two values differ by less than one; likewise for the right flag
    on a table whose width is not the viewport's. *)
Theorem edge_flags_tolerance (busy : option bool) (l : Layout) (st : @State T) :
  truthy busy = false ->
  let st' := run st (onScrollPositionChange busy l) in
  (lessEq (tableHeight l) (scrollViewportHeight l) = false ->
   forall a b,
     valueOf (minus (tableHeight l) (scrollTop l)) = Some a ->
     valueOf (scrollViewportHeight l) = Some b ->
     ((a == b)%Q -> scrolledToBottom st' = true)
     /\ (scrolledToBottom st' = true -> (a - b < 1)%Q /\ (b - a < 1)%Q))
  /\ (strictEq (tableWidth l) (scrollViewportWidth l) = false ->
     forall a b,
       valueOf (minus (tableWidth l) (scrollLeft l)) = Some a ->
       valueOf (scrollViewportWidth l) = Some b ->
       ((a == b)%Q -> scrolledToRight st' = true)
       /\ (scrolledToRight st' = true -> (a - b < 1)%Q /\ (b - a < 1)%Q)).
Proof.
  intros Hidle st'.
  pose proof (scroll_vertical busy l st) as V.
  pose proof (scroll_horizontal busy l st) as Hz.
  fold st' in V, Hz. rewrite Hidle in V, Hz. cbn [orb] in V, Hz.
  unfold verticalFlags in V. unfold horizontalFlags in Hz.
  split.
  - intros Hover a b Ha Hb. rewrite Hover in V.
    injection V as _ Vb. rewrite Vb. split.
    + now apply round_equal_same.
    + now apply round_equal_close.
  - intros Hdiff a b Ha Hb. rewrite Hdiff in Hz.
    injection Hz as _ Hr. rewrite Hr. split.
    + now apply round_equal_same.
    + now apply round_equal_close.
Qed.

(** X14.  No event but a right-click on a row opens the context menu. *)
Theorem only_right_click_opens_menu (w : @Widget T) (e : Event) :
  contextMenuInfo (state w) = None ->
  (forall i y x, e <> RowRightClick i y x) ->
  contextMenuInfo (state (step getId w e)) = None.
Proof.
  intros Hclosed Hother. unfold step. cbn [state].
  destruct e as [p l | y x | | i s | i y x | n | | n].
  - cbn [handle].
    destruct (run_only_closes _ (state w)
                (effects_only_close (Some (props w, layout w)) p l)) as [E | E];
      [exact E | now rewrite E].
  - cbn [handle]. rewrite scroll_menu.
    now destruct (truthy (fetching (props w))).
  - rewrite run_without_menu; [assumption |].
    unfold handle, headerSelectionChange.
    destruct (selectedRecords (props w)); [| constructor].
    destruct (headerSelection getId _ _); each_call.
  - rewrite run_without_menu; [assumption |].
    unfold handle, rowSelectionChange.
    destruct (records (props w)); [| constructor].
    destruct (selectedRecords (props w)); [| constructor].
    destruct (nth_error _ _); each_call.
  - now destruct (Hother i y x).
  - unfold handle, renderMenu. rewrite Hclosed.
    now destruct (rowContextMenu (props w)).
  - unfold handle, renderMenu. rewrite Hclosed.
    now destruct (rowContextMenu (props w)).
  - rewrite run_without_menu; [assumption |].
    unfold handle, handlePageChange.
    destruct (page (props w)) as [current |]; [| constructor].
    destruct (Z.eqb current 0); each_call.
Qed.

(** X15.  Only renders and scroll events change the four flags. *)
Theorem flags_change_only_on_scroll_or_render (w : @Widget T) (e : Event) :
  (forall p l, e <> Render p l) -> (forall y x, e <> Scroll y x) ->
  verticalFlags (state (step getId w e)) = verticalFlags (state w)
  /\ horizontalFlags (state (step getId w e)) = horizontalFlags (state w).
Proof.
  intros Hrender Hscroll. unfold step. cbn [state].
  apply run_without_flags. now apply handle_sets_no_flag.
Qed.

(** X17.  The anchor is set by a click on the checkbox of a row of the table, to
    the index of that row; every other event leaves it as it is or unsets
    it. *)
Theorem anchor_follows_row_clicks (w : @Widget T) :
  (forall i s rs sel r,
      records (props w) = Some rs -> selectedRecords (props w) = Some sel ->
      nth_error rs i = Some r ->
      lastSelectionChangeIndex (state (step getId w (RowCheckbox i s))) = Some i)
  /\ (forall e, (forall i s, e <> RowCheckbox i s) ->
        lastSelectionChangeIndex (state (step getId w e))
        = lastSelectionChangeIndex (state w)
        \/ lastSelectionChangeIndex (state (step getId w e)) = None).
Proof.
  split.
  - intros i s rs sel r Hrs Hsel Hr. unfold step. cbn [state handle].
    now rewrite Hrs, Hsel, Hr.
  - intros e Hother. unfold step. cbn [state].
    destruct e as [p l | y x | | i s | i y x | n | | n].
    + cbn [handle].
      destruct (run_only_unsets _ (state w)
                  (effects_only_unset (Some (props w, layout w)) p l)); auto.
    + left. cbn [handle]. apply scroll_anchor.
    + left. apply run_without_anchor.
      unfold handle, headerSelectionChange.
      destruct (selectedRecords (props w)); [| constructor].
      destruct (headerSelection getId _ _); each_call.
    + now destruct (Hother i s).
    + left. apply run_without_anchor.
      unfold handle, rowContextMenuEvent.
      destruct (records (props w)); [| constructor].
      destruct (nth_error _ _); [| constructor].
      destruct (rowContextMenu (props w)); [| constructor].
      destruct (negb _); each_call.
    + left. apply run_without_anchor.
      destruct (menuItemClick_calls w n) as [-> | [k [r ->]]]; each_call.
    + left. apply run_without_anchor.
      unfold handle, renderMenu.
      destruct (rowContextMenu (props w)); [| constructor].
      destruct (contextMenuInfo (state w)); each_call.
    + left. apply run_without_anchor.
      unfold handle, handlePageChange.
      destruct (page (props w)) as [current |]; [| constructor].
      destruct (Z.eqb current 0); each_call.
Qed.

(** X18.  A render with records of the same key sequence as before keeps the
    anchor, whatever else changed. *)
Theorem render_same_keys_keeps_anchor (w : @Widget T) (p' : @Props T) (l' : Layout) :
  recordIds getId (records (props w)) = recordIds getId (records p') ->
  lastSelectionChangeIndex (state (step getId w (Render p' l')))
  = lastSelectionChangeIndex (state w).
Proof.
  intros Hsame. unfold step. cbn [state handle]. apply run_without_anchor.
  assert (E : recordIdsString getId (records (props w))
              = recordIdsString getId (records p')).
  { unfold recordIdsString. now rewrite Hsame. }
  unfold effects. rewrite E, String.eqb_refl.
  unfold fetchingEffect, onScrollPositionChange.
  split_conditions; cbn [app]; each_call.
Qed.

(** X19.  The render in which a fetch ends, and a render outside a fetch with
    another value of the fetching property or other measured sizes than
    before, close the context menu. *)
Theorem render_closes_menu (w : @Widget T) (p' : @Props T) (l' : Layout) :
  truthy (fetching p') = false ->
  truthy (fetching (props w)) = true
  \/ sameFlag (fetching (props w)) (fetching p') = false
  \/ sameSizes (layout w) l' = false ->
  contextMenuInfo (state (step getId w (Render p' l'))) = None.
Proof.
  intros Hnew Hchanged. unfold step. cbn [state handle effects].
  assert (C : sameFlag (fetching (props w)) (fetching p') && sameSizes (layout w) l'
              = false).
  { destruct Hchanged as [Hold | [-> | ->]];
      [| reflexivity | apply andb_false_r].
    destruct (fetching (props w)) as [[|] |]; try discriminate.
    destruct (fetching p') as [[|] |]; try discriminate; reflexivity. }
  rewrite C, !run_app.
  destruct (String.eqb _ _);
    cbn [recordIdsEffect run fold_left apply contextMenuInfo];
    rewrite scroll_menu, Hnew; reflexivity.
Qed.

(** X20.  A render that changes neither the value of the fetching property
    nor the measured sizes leaves the context menu and the four flags as
    they are. *)
Theorem rerender_keeps_menu_and_flags (w : @Widget T) (p' : @Props T) (l' : Layout) :
  fetching (props w) = fetching p' ->
  sameSizes (layout w) l' = true ->
  let w' := step getId w (Render p' l') in
  contextMenuInfo (state w') = contextMenuInfo (state w)
  /\ verticalFlags (state w') = verticalFlags (state w)
  /\ horizontalFlags (state w') = horizontalFlags (state w).
Proof.
  intros Hf Hs w'. unfold w', step. cbn [state handle effects].
  assert (E : sameFlag (fetching (props w)) (fetching p') = true).
  { rewrite Hf. now destruct (fetching p') as [[|] |]. }
  rewrite E, Hs. cbn [andb app].
  destruct (String.eqb _ _); repeat split; reflexivity.
Qed.

(** X21.  With no menu open no row is marked as showing the menu; with a menu
    open the rows marked are those whose record has the key of the menu's
    record, which is one row at most when the keys are distinct. *)
Theorem context_menu_row_highlight (st : @State T) (rs : list T) :
  (contextMenuInfo st = None -> forall r, contextMenuVisible getId st r = false)
  /\ (forall info, contextMenuInfo st = Some info ->
        (forall r, contextMenuVisible getId st r = true
                   <-> getId r = getId (record info))
        /\ (NoDup (keys getId rs) ->
            forall i j r r', nth_error rs i = Some r -> nth_error rs j = Some r' ->
              contextMenuVisible getId st r = true ->
              contextMenuVisible getId st r' = true -> i = j)).
Proof.
  unfold contextMenuVisible. split.
  - now intros ->.
  - intros info ->.
    assert (Hkey : forall r, sameValueZero (getId (record info)) (getId r) = true
                             <-> getId r = getId (record info)).
    { intros r. rewrite sameValueZero_true. split; congruence. }
    split; [exact Hkey |].
    intros Hnd i j r r' Hi Hj Hr Hr'.
    apply Hkey in Hr. apply Hkey in Hr'.
    unfold keys in Hnd. rewrite NoDup_nth_error in Hnd. apply Hnd.
    + rewrite length_map. apply nth_error_Some. congruence.
    + rewrite !nth_error_map, Hi, Hj. simpl. congruence.
Qed.

Lemma flags_unchanged (w : @Widget T) (e : Event) :
  (forall p l, e <> Render p l) -> (forall y x, e <> Scroll y x) ->
  verticalFlags (state (step getId w e)) = verticalFlags (state w)
  /\ horizontalFlags (state (step getId w e)) = horizontalFlags (state w).
Proof.
  intros Hrender Hscroll. unfold step. cbn [state].
  apply run_without_flags. now apply handle_sets_no_flag.
Qed.

Lemma fetching_step_keeps_flags (w : @Widget T) (e : Event) :
  fetching (props w) = Some true ->
  verticalFlags (state w) = (true, true) ->
  horizontalFlags (state w) = (true, true) ->
  (forall p l, e = Render p l -> fetching p = Some true) ->
  fetching (props (step getId w e)) = Some true
  /\ verticalFlags (state (step getId w e)) = (true, true)
  /\ horizontalFlags (state (step getId w e)) = (true, true).
Proof.
  intros Hf V Hz Hrender.
  destruct e as [p l | y x | | i s | i y x | n | | n];
    try (split; [exact Hf |];
         match goal with
         | |- context [step getId w ?e] =>
             destruct (flags_unchanged w e) as [A B];
             [intros; discriminate | intros; discriminate |];
             rewrite A, B; now split
         end).
  - pose proof (Hrender p l eq_refl) as Hp.
    unfold step. cbn [props state handle effects].
    split; [exact Hp |].
    rewrite Hf, Hp. cbn [sameFlag Bool.eqb andb app].
    set (B := if sameSizes (layout w) l then []
              else onScrollPositionChange (Some true) l).
    set (C := if String.eqb _ _ then [] else recordIdsEffect).
    assert (FB : verticalFlags (run (state w) B) = (true, true)
                 /\ horizontalFlags (run (state w) B) = (true, true)).
    { unfold B. destruct (sameSizes (layout w) l); [now split |].
      now rewrite scroll_vertical, scroll_horizontal. }
    assert (FC : Forall (fun c : @Call T => setsFlag c = false) C).
    { unfold C. destruct (String.eqb _ _); each_call. }
    rewrite run_app.
    destruct (run_without_flags C (run (state w) B) FC) as [-> ->].
    exact FB.
  - unfold step. cbn [props state handle]. split; [exact Hf |].
    now rewrite Hf, scroll_vertical, scroll_horizontal.
Qed.

(** X22.  During a fetch the four flags stay set: from the mount of a fetching
    table on, through any events whose renders keep the fetching flag,
    all four flags are set after every event. *)
Theorem fetching_keeps_flags (p : @Props T) (l : Layout) (es : list Event) :
  fetching p = Some true ->
  Forall (fun e => forall p' l', e = Render p' l' -> fetching p' = Some true) es ->
  let w := steps getId (mount getId p l) es in
  fetching (props w) = Some true
  /\ verticalFlags (state w) = (true, true)
  /\ horizontalFlags (state w) = (true, true).
Proof.
  intros Hf Hes.
  assert (Hmount : fetching (props (mount getId p l)) = Some true
                   /\ verticalFlags (state (mount getId p l)) = (true, true)
                   /\ horizontalFlags (state (mount getId p l)) = (true, true)).
  { unfold mount. cbn [props state effects]. rewrite Hf.
    split; [reflexivity |]. split; reflexivity. }
  revert Hmount. generalize (mount getId p l). unfold steps.
  induction Hes as [|e es He _ IH]; intros w Hw; [exact Hw |].
  cbn [fold_left]. apply IH.
  destruct Hw as (H1 & H2 & H3). now apply fetching_step_keeps_flags.
Qed.

End WidgetExtras.

(** ** The further properties on the sample data *)

Lemma header_toggle_flips_checkbox_witness :
  staff <> []
  /\ exists S1,
       headerSelection id (Some staff) [ada; eve] = Some S1
       /\ allRecordsSelected id (Some staff) (Some S1) = true.
Proof.
  split; [discriminate |].
  destruct (header_toggle_flips_checkbox id staff [ada; eve]) as (S1 & E & A & _);
    [discriminate |].
  exists S1. split; [exact E | exact A].
Defined.

Lemma header_toggle_keeps_other_keys_witness :
  exists S1,
    headerSelection id (Some [ada; bob]) [ada; eve] = Some S1
    /\ selected id (Some S1) eve = true
    /\ selected id (Some S1) dan = false.
Proof.
  destruct (header_toggle_keeps_other_keys id [ada; bob] [ada; eve]) as (S1 & E & K).
  exists S1. split; [exact E |]. split.
  - rewrite K; [reflexivity |]. simpl. intuition discriminate.
  - rewrite K; [reflexivity |]. simpl. intuition discriminate.
Defined.

Lemma header_toggle_needs_records_witness :
  headerSelection id None [ada] = None
  /\ headerSelectionChange id None [ada] = []
  /\ exists S1, headerSelectionChange id (Some staff) [ada]
                = [onSelectedRecordsChange S1].
Proof.
  destruct (header_toggle_needs_records id None [ada]) as (Hnone & Hcalls & _).
  destruct (header_toggle_needs_records id (Some staff) [ada]) as (_ & _ & Hsome).
  split; [now apply Hnone |]. split; [now apply Hcalls |].
  apply (Hsome staff). reflexivity.
Defined.

Lemma shift_click_on_anchor_witness :
  nth_error staff 2 = Some cyd
  /\ rowSelection id true (Some 2) staff [ada; cyd] 2 cyd
     = rowSelection id false (Some 2) staff [ada; cyd] 2 cyd.
Proof.
  split; [reflexivity |].
  apply (shift_click_on_anchor id staff [ada; cyd] 2 cyd). reflexivity.
Defined.

Lemma interval_length_witness :
  List.length (recordsInterval staff 4 1) = 4
  /\ forall x, In x (recordsInterval staff 4 1) -> In x staff.
Proof.
  apply (interval_length staff 4 1); simpl; lia.
Defined.

Lemma click_then_shift_click_witness :
  let S1 := rowSelection id false None staff [] 1 bob in
  let S2 := rowSelection id true (Some 1) staff S1 4 eve in
  selected id (Some S2) ada = false
  /\ selected id (Some S2) bob = true
  /\ selected id (Some S2) dan = true
  /\ selected id (Some S2) eve = true.
Proof.
  intros S1 S2.
  pose proof (click_then_shift_click id staff [] 1 4 bob eve None
                eq_refl eq_refl eq_refl eq_refl) as H.
  assert (Hne : id bob <> id eve) by discriminate.
  specialize (H Hne). cbv zeta in H. fold S1 in H. fold S2 in H.
  rewrite !H. repeat split.
Defined.

Lemma shift_select_then_deselect_witness :
  let S1 := rowSelection id true (Some 1) staff [ada; cyd] 3 dan in
  let S2 := rowSelection id true (Some 3) staff S1 1 bob in
  selected id (Some S2) ada = true
  /\ selected id (Some S2) cyd = false
  /\ selected id (Some S2) dan = false.
Proof.
  intros S1 S2.
  pose proof (shift_select_then_deselect id staff [ada; cyd] 1 3 bob dan
                eq_refl eq_refl eq_refl) as H.
  cbv zeta in H. fold S1 in H. fold S2 in H.
  rewrite !H. repeat split.
Defined.

Lemma additions_extend_selection_witness :
  NoDup (keys id [ada; bob])
  /\ (exists added,
        rowSelection id true (Some 0) staff [ada; bob] 2 cyd = [ada; bob] ++ added)
  /\ (exists added,
        headerSelection id (Some staff) [ada; bob] = Some ([ada; bob] ++ added)).
Proof.
  assert (Hnd : NoDup (keys id [ada; bob])).
  { repeat (constructor; [simpl; intuition discriminate |]). constructor. }
  destruct (additions_extend_selection id staff [ada; bob] Hnd) as [Hrow Hheader].
  split; [exact Hnd |]. split.
  - destruct (Hrow true (Some 0) 2 cyd eq_refl) as (added & E & _).
    now exists added.
  - destruct (Hheader eq_refl) as (added & E & _). now exists added.
Defined.

Lemma no_shadow_when_fitting_or_fetching_witness :
  let p := propsOf false staff [] in
  let l := (layoutOf 800 400 800 500 0 0)%float in
  let st' := run initialState (onScrollPositionChange (fetching p) l) in
  leftShadowVisible p st' = false
  /\ rightShadowVisible st' = false
  /\ bottomShadowVisible st' = false
  /\ headerBottomShadowVisible st' = false
  /\ selectionVisibleAndNotScrolledToLeft p st' = false.
Proof.
  intros p l.
  apply (no_shadow_when_fitting_or_fetching p l initialState).
  right. split; reflexivity.
Defined.

Lemma edge_flags_tolerance_witness :
  let l := (layoutOf 800 600.25 800 500 100.25 0)%float in
  lessEq (tableHeight l) (scrollViewportHeight l) = false
  /\ exists a b,
       valueOf (minus (tableHeight l) (scrollTop l)) = Some a
       /\ valueOf (scrollViewportHeight l) = Some b
       /\ (a == 500)%Q /\ (b == 500)%Q
       /\ scrolledToBottom
            (run (@initialState Employee) (onScrollPositionChange None l)) = true.
Proof.
  intros l.
  destruct (edge_flags_tolerance None l (@initialState Employee) eq_refl)
    as [Hv _].
  split; [reflexivity |].
  eexists. eexists.
  split; [vm_compute; reflexivity |]. split; [vm_compute; reflexivity |].
  split; [vm_compute; reflexivity |]. split; [vm_compute; reflexivity |].
  refine (proj1 (Hv eq_refl _ _ _ _) _);
    [vm_compute; reflexivity | vm_compute; reflexivity | vm_compute; reflexivity].
Defined.

Lemma only_right_click_opens_menu_witness :
  contextMenuInfo (state toggledWidget) = None
  /\ contextMenuInfo (state (step id toggledWidget (Scroll 100%float 0%float))) = None.
Proof.
  split; [reflexivity |].
  apply (only_right_click_opens_menu id toggledWidget (Scroll 100%float 0%float));
    [reflexivity | intros; discriminate].
Defined.

Lemma flags_change_only_on_scroll_or_render_witness :
  verticalFlags (state (step id busyWidget (RowCheckbox 1 false)))
  = verticalFlags (state busyWidget)
  /\ horizontalFlags (state (step id busyWidget (RowCheckbox 1 false)))
     = horizontalFlags (state busyWidget).
Proof.
  apply (flags_change_only_on_scroll_or_render id busyWidget (RowCheckbox 1 false));
    intros; discriminate.
Defined.

Lemma anchor_follows_row_clicks_witness :
  lastSelectionChangeIndex (state (step id toggledWidget (RowCheckbox 3 true)))
  = Some 3
  /\ (lastSelectionChangeIndex (state (step id toggledWidget MenuDestroy))
      = lastSelectionChangeIndex (state toggledWidget)
      \/ lastSelectionChangeIndex (state (step id toggledWidget MenuDestroy)) = None).
Proof.
  destruct (anchor_follows_row_clicks id toggledWidget) as [Hset Hkeep].
  split.
  - apply (Hset 3 true staff [] dan); reflexivity.
  - apply Hkeep. intros; discriminate.
Defined.

Lemma render_same_keys_keeps_anchor_witness :
  lastSelectionChangeIndex
    (state (step id toggledWidget
              (Render (propsOf true staff [ada])
                 (layoutOf 900 700 800 500 0 0)%float)))
  = Some 0.
Proof.
  rewrite (render_same_keys_keeps_anchor id toggledWidget
             (propsOf true staff [ada]) (layoutOf 900 700 800 500 0 0)%float);
    reflexivity.
Defined.

Lemma render_closes_menu_witness :
  contextMenuInfo (state busyWidget)
  = Some {| top := 40%float; left := 60%float; record := cyd |}
  /\ contextMenuInfo
       (state (step id busyWidget (Render (propsOf false staff []) quietLayout)))
     = None.
Proof.
  split; [reflexivity |].
  apply (render_closes_menu id busyWidget (propsOf false staff []) quietLayout);
    [reflexivity | left; reflexivity].
Defined.

Lemma rerender_keeps_menu_and_flags_witness :
  let w := step id (mount id (propsOf false staff []) quietLayout)
             (RowRightClick 2 40%float 60%float) in
  contextMenuInfo (state (step id w (Render (propsOf false staff [cyd]) quietLayout)))
  = Some {| top := 40%float; left := 60%float; record := cyd |}.
Proof.
  intros w.
  destruct (rerender_keeps_menu_and_flags id w (propsOf false staff [cyd]) quietLayout)
    as (E & _ & _); [reflexivity | reflexivity |].
  rewrite E. reflexivity.
Defined.

Lemma context_menu_row_highlight_witness :
  contextMenuVisible id (state busyWidget) cyd = true
  /\ forall i j r r',
       nth_error staff i = Some r -> nth_error staff j = Some r' ->
       contextMenuVisible id (state busyWidget) r = true ->
       contextMenuVisible id (state busyWidget) r' = true -> i = j.
Proof.
  destruct (context_menu_row_highlight id (state busyWidget) staff) as [_ Hopen].
  destruct (Hopen {| top := 40%float; left := 60%float; record := cyd |} eq_refl)
    as [Hmark Hone].
  split.
  - apply Hmark. reflexivity.
  - apply Hone.
    repeat (constructor; [simpl; intuition discriminate |]). constructor.
Defined.

Lemma fetching_keeps_flags_witness :
  let w := steps id (mount id (propsOf true staff []) quietLayout)
             [Scroll 100%float 0%float;
              RowRightClick 2 40%float 60%float;
              Render (propsOf true [ada] []) (layoutOf 500 900 400 300 0 20)%float] in
  fetching (props w) = Some true
  /\ verticalFlags (state w) = (true, true)
  /\ horizontalFlags (state w) = (true, true).
Proof.
  apply (fetching_keeps_flags id (propsOf true staff []) quietLayout);
    [reflexivity |].
  repeat (apply Forall_cons;
          [intros p' l' E; (discriminate E || (injection E as <- <-; reflexivity)) |]).
  apply Forall_nil.
Defined.
